(** * SpaceExplorer: the dashboard's normalizer, view filter and aggregates

    A shallow embedding of [src/App.jsx].  The component fetches the
    catalogue of solar-system bodies, keeps the planets and dwarf planets
    (at most 15), and renders a table filtered by a search term and a type
    selection, together with three statistics over the whole data set.

    JavaScript numbers are IEEE-754 binary64 values: they are modelled by
    the Standard Library's [spec_float] at precision 53, with its correctly
    rounded [SFadd], [SFmul] and [SFdiv].  Strings are sequences of code units
    below 256 (the Basic Latin and Latin-1 blocks), on which [toLowerCase]
    acts unit by unit: it maps A-Z and the letters U+00C0-U+00DE (U+00D7,
    the multiplication sign, apart) to the unit 32 above and leaves every
    other unit alone.  Strings with other code units (where case mapping
    can depend on the context, as for the Greek final sigma) are not
    values of this model.  A property that is absent from an
    upstream record ([undefined] or JSON [null], which this code never tells
    apart) is [None]. *)

From Stdlib Require Import ZArith Lia String Ascii Bool.
From Stdlib Require Import Floats.SpecFloat DecimalString DecimalPos DecimalN.
From stdpp Require Import base list strings.

Local Open Scope string_scope.
Local Open Scope nat_scope.

(** ** JavaScript numbers *)

Module Number.

Local Open Scope Z_scope.

Definition prec : Z := 53.
Definition emax : Z := 1024.

Definition float : Type := spec_float.

(** The Number nearest to an integer (exact below 2^53). *)
Definition of_Z (z : Z) : float := binary_normalize prec emax z 0 false.
Definition of_nat (n : nat) : float := of_Z (Z.of_nat n).

Definition zero : float := S754_zero false.

Definition add : float -> float -> float := SFadd prec emax.
Definition mul : float -> float -> float := SFmul prec emax.
Definition div : float -> float -> float := SFdiv prec emax.

(** ToBoolean on a Number: [+0], [-0] and [NaN] are falsy. *)
Definition truthy (x : float) : bool :=
  match x with
  | S754_zero _ | S754_nan => false
  | S754_infinity _ | S754_finite _ _ _ => true
  end.

Definition is_finite (x : float) : bool :=
  match x with
  | S754_zero _ | S754_finite _ _ _ => true
  | S754_infinity _ | S754_nan => false
  end.

Definition is_negative (x : float) : bool :=
  match x with
  | S754_finite s _ _ => s
  | _ => false
  end.

Definition eqb (x y : float) : bool :=
  match x, y with
  | S754_zero a, S754_zero b => Bool.eqb a b
  | S754_infinity a, S754_infinity b => Bool.eqb a b
  | S754_nan, S754_nan => true
  | S754_finite a m e, S754_finite b m' e' =>
      Bool.eqb a b && Pos.eqb m m' && Z.eqb e e'
  | _, _ => false
  end.

(** The magnitude of a finite Number as an exact fraction [num / den]:
    a finite value is [m * 2^e]. *)
Definition num (x : float) : Z :=
  match x with
  | S754_finite _ m e => Z.pos m * 2 ^ Z.max e 0
  | _ => 0
  end.

Definition den (x : float) : Z :=
  match x with
  | S754_finite _ m e => 2 ^ Z.max (- e) 0
  | _ => 1
  end.

(** *** Decimal digits *)

Definition digits (n : Z) : string :=
  NilZero.string_of_uint (N.to_uint (Z.to_N n)).

Fixpoint zeros (k : nat) : string :=
  match k with
  | O => ""
  | S k' => String "0" (zeros k')
  end.

Fixpoint take_str (k : nat) (s : string) : string :=
  match k, s with
  | S k', String c s' => String c (take_str k' s')
  | _, _ => ""
  end.

Fixpoint drop_str (k : nat) (s : string) : string :=
  match k, s with
  | S k', String _ s' => drop_str k' s'
  | _, _ => s
  end.

Fixpoint strip_zeros_rev (s : string) : string :=
  match s with
  | String "0" s' => strip_zeros_rev s'
  | _ => s
  end.

Definition strip_trailing_zeros (s : string) : string :=
  String.rev (strip_zeros_rev (String.rev s)).

(** *** Number::toString for integral values of at least 10^21

    The digits are the shortest decimal [s * 10^(n-k)] that reads back
    as the same Number; with [n > 21] the result is in exponential
    notation. *)

Definition reads_back (x : float) (v : Z) : bool := eqb (of_Z v) x.

Definition candidate (x : float) (X : Z) (k : nat) : option Z :=
  let d := String.length (digits X) in
  let p := 10 ^ Z.of_nat (d - k) in
  let lo := (X / p) * p in
  let hi := lo + p in
  match reads_back x lo, reads_back x hi with
  | true, true => Some (if X - lo <=? hi - X then lo else hi)
  | true, false => Some lo
  | false, true => Some hi
  | false, false => None
  end.

Fixpoint shortest (x : float) (X : Z) (ks : list nat) : Z :=
  match ks with
  | [] => X
  | k :: ks' =>
      match candidate x X k with
      | Some v => v
      | None => shortest x X ks'
      end
  end.

Definition exponential (v : Z) : string :=
  let all := digits v in
  let n := String.length all in
  let s := strip_trailing_zeros all in
  let e := "e+" +:+ digits (Z.of_nat (n - 1)) in
  match s with
  | String c "" => String c e
  | String c rest => String c ("." +:+ rest +:+ e)
  | "" => all
  end.

Definition toString_large (x : float) : string :=
  let X := num x in
  exponential (shortest x X (seq 1 17)).

(** *** Number.prototype.toFixed

    Steps of the language definition: a non-finite value prints as
    itself; the sign is split off; a magnitude of at least 10^21 falls
    back to Number::toString; otherwise [n] is the integer for which
    [n / 10^f - x] is closest to zero, the larger one on a tie, printed
    with at least [f + 1] digits and a point before the last [f]. *)

Definition scaled (f : nat) (x : float) : Z :=
  (2 * 10 ^ Z.of_nat f * num x + den x) / (2 * den x).

Definition fixed_digits (f : nat) (n : Z) : string :=
  let m := digits n in
  let k := String.length m in
  let m := if (k <=? f)%nat then zeros (f + 1 - k) +:+ m else m in
  let k := String.length m in
  if (f =? 0)%nat then m
  else take_str (k - f) m +:+ "." +:+ drop_str (k - f) m.

Definition toFixed (fractionDigits : nat) (x : float) : string :=
  match x with
  | S754_nan => "NaN"
  | S754_infinity false => "Infinity"
  | S754_infinity true => "-Infinity"
  | _ =>
      let s := if is_negative x then "-" else "" in
      if 10 ^ 21 * den x <=? num x
      then s +:+ toString_large (SFabs x)
      else s +:+ fixed_digits fractionDigits (scaled fractionDigits x)
  end.

End Number.

(** ** JavaScript strings *)

Module JsString.

(** The code units with a lower-case mapping: A-Z, and in Latin-1
    U+00C0-U+00DE without U+00D7. *)
Definition has_lower (n : nat) : bool :=
  (65 <=? n) && (n <=? 90)
  || (192 <=? n) && (n <=? 222) && negb (n =? 215).

Definition lower_ascii (c : ascii) : ascii :=
  let n := nat_of_ascii c in
  if has_lower n then ascii_of_nat (n + 32) else c.

(** String.prototype.toLowerCase *)
Fixpoint toLowerCase (s : string) : string :=
  match s with
  | "" => ""
  | String c s' => String (lower_ascii c) (toLowerCase s')
  end.

(** String.prototype.includes: does [t] occur in [s]? *)
Fixpoint includes (s t : string) : bool :=
  String.prefix t s ||
  match s with
  | "" => false
  | String _ s' => includes s' t
  end.

End JsString.

(** ** Exceptions *)

Inductive Exn : Type :=
| TypeError (message : string)
| Error (message : string).

Definition message (e : Exn) : string :=
  match e with TypeError m | Error m => m end.

(** A computation either throws or returns. *)
Definition result (A : Type) : Type := Exn + A.

Definition ret {A} (a : A) : result A := inr a.
Definition throw {A} (e : Exn) : result A := inl e.

Definition bind {A B} (c : result A) (k : A -> result B) : result B :=
  match c with
  | inl e => inl e
  | inr a => k a
  end.

Notation "'let!' x ':=' c 'in' k" := (bind c (fun x => k))
  (at level 10, x name, c at level 100, k at level 200).

(** Array.prototype.filter with a callback that may throw: the elements are
    visited in order and the first exception ends the call. *)
Fixpoint array_filter {A} (callback : A -> result bool) (xs : list A)
  : result (list A) :=
  match xs with
  | [] => ret []
  | x :: xs' =>
      let! keep := callback x in
      let! rest := array_filter callback xs' in
      ret (if keep then x :: rest else rest)
  end.

(** A value that is either a Number or a string ([typeof] tells which). *)
Inductive NumOrStr : Type :=
| Num (x : Number.float)
| Str (s : string).

(** ** Records *)

(** An entry of a body's [moons] array; only the array's length is read. *)
Record MoonEntry : Type := { moon : option string; rel : option string }.

(** A record of the upstream catalogue (the fields this code reads). *)
Module Body.
Record t : Type := mk {
  englishName : option string;
  isPlanet : bool;
  bodyType : string;
  semimajorAxis : option Number.float;
  meanRadius : option Number.float;
  moons : option (list MoonEntry);
  discoveryDate : option string
}.
End Body.

(** A row of the dashboard. *)
Module CelestialObject.
Record t : Type := mk {
  id : nat;
  name : option string;
  type : string;
  distanceFromSun : string;
  diameter : NumOrStr;
  moons : nat;
  discoveryYear : string
}.
End CelestialObject.

Abbreviation Body := Body.t.
Abbreviation CelestialObject := CelestialObject.t.

(** ** The normalizer: [transformedData] in [fetchSolarSystemData] *)

(** The source's literal 149598000: kilometres per astronomical unit. *)
Definition KM_PER_AU : Number.float := Number.of_Z 149598000%Z.

(** [body.isPlanet || body.bodyType === 'Dwarf Planet'] *)
Definition keeps (body : Body) : Prop :=
  Body.isPlanet body ∨ Body.bodyType body = "Dwarf Planet".

Global Instance keeps_dec body : Decision (keeps body).
Proof. unfold keeps. apply _. Defined.

Definition transform (index : nat) (body : Body) : CelestialObject :=
  {| CelestialObject.id := index + 1;
     CelestialObject.name := Body.englishName body;
     CelestialObject.type :=
       if Body.isPlanet body then "planet" else "dwarf planet";
     CelestialObject.distanceFromSun :=
       match Body.semimajorAxis body with
       | Some a =>
           if Number.truthy a
           then Number.toFixed 2 (Number.div a KM_PER_AU)
           else "Unknown"
       | None => "Unknown"
       end;
     CelestialObject.diameter :=
       match Body.meanRadius body with
       | Some r =>
           if Number.truthy r
           then Num (Number.mul r (Number.of_Z 2%Z))
           else Str "Unknown"
       | None => Str "Unknown"
       end;
     CelestialObject.moons :=
       match Body.moons body with
       | Some entries => length entries
       | None => 0
       end;
     CelestialObject.discoveryYear :=
       match Body.discoveryDate body with
       | Some "" | None => "Prehistoric"
       | Some date => date
       end |}.

Definition transformedData (bodies : list Body) : list CelestialObject :=
  imap transform (take 15 (filter keeps bodies)).

(** ** The view filter: the body of the second [useEffect] *)

(** [object.name.toLowerCase()]: reading a property of [undefined] throws. *)
Definition name_toLowerCase (object : CelestialObject) : result string :=
  match CelestialObject.name object with
  | Some s => ret (JsString.toLowerCase s)
  | None =>
      throw (TypeError
        "Cannot read properties of undefined (reading 'toLowerCase')")
  end.

Definition matches (searchTerm objectType : string) (object : CelestialObject)
  : result bool :=
  let! lowered := name_toLowerCase object in
  let matchesSearch :=
    JsString.includes lowered (JsString.toLowerCase searchTerm) in
  let matchesType :=
    String.eqb objectType "all" ||
    String.eqb (CelestialObject.type object) objectType in
  ret (matchesSearch && matchesType).

Definition results (celestialObjects : list CelestialObject)
    (searchTerm objectType : string) : result (list CelestialObject) :=
  array_filter (matches searchTerm objectType) celestialObjects.

(** ** The statistics computed on every render *)

Definition totalObjects (celestialObjects : list CelestialObject) : nat :=
  length celestialObjects.

Definition diameter_or_zero (obj : CelestialObject) : Number.float :=
  match CelestialObject.diameter obj with
  | Num d => d
  | Str _ => Number.zero
  end.

(** [celestialObjects.reduce((sum, obj) => sum + diameter, 0)] *)
Definition sumDiameters (celestialObjects : list CelestialObject)
  : Number.float :=
  fold_left (fun sum obj => Number.add sum (diameter_or_zero obj))
            celestialObjects Number.zero.

Definition averageDiameter (celestialObjects : list CelestialObject)
  : NumOrStr :=
  if (0 <? length celestialObjects)
  then Str (Number.toFixed 2
              (Number.div (sumDiameters celestialObjects)
                          (Number.of_nat (totalObjects celestialObjects))))
  else Num Number.zero.

(** Moon counts are array lengths; their sum is exact in binary64 far
    beyond any catalogue, so it is taken in [nat]. *)
Definition totalMoons (celestialObjects : list CelestialObject) : nat :=
  if (0 <? length celestialObjects)
  then fold_left (fun sum obj => sum + CelestialObject.moons obj)
                 celestialObjects 0
  else 0.

(** ** The component's state and its transitions *)

Record State : Type := {
  celestialObjects : list CelestialObject;
  filteredObjects : list CelestialObject;
  loading : bool;
  searchTerm : string;
  objectType : string;
  error : option string
}.

(** The [useState] initial values. *)
Definition initial : State :=
  {| celestialObjects := []; filteredObjects := []; loading := true;
     searchTerm := ""; objectType := "all"; error := None |}.

Definition setSearchTerm (value : string) (st : State) : State :=
  {| celestialObjects := celestialObjects st;
     filteredObjects := filteredObjects st;
     loading := loading st;
     searchTerm := value;
     objectType := objectType st;
     error := error st |}.

Definition setObjectType (value : string) (st : State) : State :=
  {| celestialObjects := celestialObjects st;
     filteredObjects := filteredObjects st;
     loading := loading st;
     searchTerm := searchTerm st;
     objectType := value;
     error := error st |}.

Definition setFilteredObjects (rows : list CelestialObject) (st : State)
  : State :=
  {| celestialObjects := celestialObjects st;
     filteredObjects := rows;
     loading := loading st;
     searchTerm := searchTerm st;
     objectType := objectType st;
     error := error st |}.

(** [fetchSolarSystemData] once the request has settled.  [outcome] is what
    the [try] block obtained up to [data]: the parsed [bodies], or the
    exception of a rejected request, a status that is not ok, or a body that
    does not parse. *)
Definition fetchSolarSystemData (outcome : result (list Body)) (st : State)
  : State :=
  match outcome with
  | inr bodies =>
      {| celestialObjects := transformedData bodies;
         filteredObjects := transformedData bodies;
         loading := false;
         searchTerm := searchTerm st;
         objectType := objectType st;
         error := None |}
  | inl e =>
      {| celestialObjects := celestialObjects st;
         filteredObjects := filteredObjects st;
         loading := false;
         searchTerm := searchTerm st;
         objectType := objectType st;
         error := Some ("Failed to fetch data: " +:+ message e) |}
  end.

(** The second [useEffect]: recompute the rows from the whole data set. *)
Definition filterEffect (st : State) : result State :=
  let! rows := results (celestialObjects st) (searchTerm st) (objectType st) in
  ret (setFilteredObjects rows st).

Inductive Event : Type :=
| Fetched (outcome : result (list Body))
| SearchInput (value : string)
| TypeSelected (value : string).

Definition update (st : State) (ev : Event) : State :=
  match ev with
  | Fetched outcome => fetchSolarSystemData outcome st
  | SearchInput value => setSearchTerm value st
  | TypeSelected value => setObjectType value st
  end.

(** One event: the state update followed by the filter effect.  React
    renders the updated state [update st ev] first (new criteria or data,
    rows not yet refiltered) and runs the effect after that render; [step]
    gives the state once the effect has stored its rows.  (React skips the
    effect when none of its three inputs changed; running it then stores
    the rows it stored before.) *)
Definition step (st : State) (ev : Event) : result State :=
  filterEffect (update st ev).

Fixpoint run (st : State) (evs : list Event) : result State :=
  match evs with
  | [] => ret st
  | ev :: evs' => let! st' := step st ev in run st' evs'
  end.

(** The three statistic cards of a render. *)
Record Stats : Type := {
  statObjects : nat;
  statAverageDiameter : NumOrStr;
  statMoons : nat
}.

Definition stats (st : State) : Stats :=
  {| statObjects := totalObjects (celestialObjects st);
     statAverageDiameter := averageDiameter (celestialObjects st);
     statMoons := totalMoons (celestialObjects st) |}.

(** * Specification vocabulary *)

(** ** Rounding to two fraction digits *)

(** [n] is the integer nearest to [scale * |x|], the larger one when two
    integers are equally near: rounding half away from zero once the sign
    is put back. *)
Definition nearest (scale : Z) (x : Number.float) (n : Z) : Prop :=
  forall k : Z,
    (Z.abs (scale * Number.num x - n * Number.den x)
     <= Z.abs (scale * Number.num x - k * Number.den x))%Z
    /\ (Z.abs (scale * Number.num x - k * Number.den x)
        = Z.abs (scale * Number.num x - n * Number.den x)
        -> (k <= n)%Z).

(** What a digit string reads as. *)
Definition reads (s : string) (n : Z) : Prop :=
  exists d, NilZero.uint_of_string s = Some d /\ Z.of_N (N.of_uint d) = n.

(** [s] is a digit string with a point before its last two digits, and the
    digits read as the integer [n]: [s] denotes [n / 100]. *)
Definition two_fraction_digits (s : string) (n : Z) : Prop :=
  exists a b,
    s = a +:+ "." +:+ b
    /\ a <> ""
    /\ String.length b = 2
    /\ reads (a +:+ b) n.

(** Finite and of magnitude below 10^21: where [toFixed] prints fixed
    notation. *)
Definition fixed_range (x : Number.float) : Prop :=
  Number.is_finite x = true
  /\ (Number.num x < 10 ^ 21 * Number.den x)%Z.

(** [s] is the sign of [x] followed by the two-digit decimal nearest to
    its magnitude, ties going away from zero. *)
Definition rounded_to_hundredths (x : Number.float) (s : string) : Prop :=
  exists n,
    s = (if Number.is_negative x then "-" else "") +:+ Number.fixed_digits 2 n
    /\ nearest 100 x n
    /\ two_fraction_digits (Number.fixed_digits 2 n) n.

(** A Number that compares equal to 0: [+0] or [-0]. *)
Definition is_zero (x : Number.float) : Prop :=
  exists s, x = S754_zero s.

(** ** Substrings *)

(** [t] occurs in [s]. *)
Definition contains (s t : string) : Prop :=
  exists pre post, s = pre +:+ t +:+ post.

(** An upper-case letter, by its code: A-Z, or one of the Latin-1 capitals
    U+00C0-U+00DE (U+00D7 is the multiplication sign). *)
Definition is_upper (c : ascii) : Prop :=
  65 <= nat_of_ascii c <= 90
  \/ (192 <= nat_of_ascii c <= 222 /\ nat_of_ascii c <> 215).

(** The same character, or the two cases of one letter. *)
Definition same_letter (a b : ascii) : Prop :=
  a = b
  \/ (is_upper a /\ nat_of_ascii b = nat_of_ascii a + 32)
  \/ (is_upper b /\ nat_of_ascii a = nat_of_ascii b + 32).

(** Equal up to the case of letters, position by position. *)
Fixpoint equal_ignoring_case (s t : string) : Prop :=
  match s, t with
  | "", "" => True
  | String a s', String b t' => same_letter a b /\ equal_ignoring_case s' t'
  | _, _ => False
  end.

(** Some stretch of [name] equals [search] up to the case of letters. *)
Definition contains_ignoring_case (name search : string) : Prop :=
  exists pre mid post,
    name = pre +:+ mid +:+ post /\ equal_ignoring_case mid search.

(** ** Selecting from a list *)

(** [selected P xs ys]: [ys] is [xs] with exactly the elements that do not
    satisfy [P] left out, nothing moved. *)
Inductive selected {A : Type} (P : A -> Prop) : list A -> list A -> Prop :=
| selected_nil : selected P [] []
| selected_keep x xs ys :
    P x -> selected P xs ys -> selected P (x :: xs) (x :: ys)
| selected_skip x xs ys :
    ~ P x -> selected P xs ys -> selected P (x :: xs) ys.

Create HintDb selection discriminated.
#[global] Hint Constructors selected sublist : selection.

(** What the view filter is meant to keep: the name contains the search
    term up to case, and the selection is "all" or the object's own type. *)
Definition visible (searchTerm objectType : string) (o : CelestialObject)
  : Prop :=
  (exists n, CelestialObject.name o = Some n
             /\ contains_ignoring_case n searchTerm)
  /\ (objectType = "all" \/ CelestialObject.type o = objectType).

(** Every name in the data set is a string. *)
Definition named (ds : list CelestialObject) : Prop :=
  Forall (fun o => is_Some (CelestialObject.name o)) ds.

Definition undefined_name_error : Exn :=
  TypeError "Cannot read properties of undefined (reading 'toLowerCase')".

(** ** The mean diameter *)

(** The value a diameter adds to the sum: itself when it is a Number, zero
    when it is the "Unknown" string. *)
Definition unknown_as_zero (d : NumOrStr) : Number.float :=
  match d with
  | Num x => x
  | Str _ => Number.zero
  end.

(** The sum of the diameters, unknown ones adding zero, divided by the
    number of all entries. *)
Definition mean_diameter (ds : list CelestialObject) : Number.float :=
  Number.div
    (fold_left Number.add
               ((fun o => unknown_as_zero (CelestialObject.diameter o)) <$> ds)
               Number.zero)
    (Number.of_nat (length ds)).

(** ** Criteria changes *)

Definition is_criteria (ev : Event) : Prop :=
  match ev with
  | SearchInput _ | TypeSelected _ => True
  | Fetched _ => False
  end.

(** ** Sample records *)

Definition earth : Body :=
  {| Body.englishName := Some "Earth";
     Body.isPlanet := true;
     Body.bodyType := "Planet";
     Body.semimajorAxis := Some (Number.of_Z 149598023);
     Body.meanRadius := Some (Number.of_Z 6371);
     Body.moons := Some [ {| moon := None; rel := None |};
                          {| moon := None; rel := None |} ];
     Body.discoveryDate := None |}.

(** A planet the catalogue gives no English name for. *)
Definition nameless_planet : Body :=
  {| Body.englishName := None;
     Body.isPlanet := true;
     Body.bodyType := "Planet";
     Body.semimajorAxis := None;
     Body.meanRadius := None;
     Body.moons := None;
     Body.discoveryDate := None |}.

(** A dwarf planet whose semi-major axis and mean radius are given as 0. *)
Definition zero_sized : Body :=
  {| Body.englishName := Some "Quaoar";
     Body.isPlanet := false;
     Body.bodyType := "Dwarf Planet";
     Body.semimajorAxis := Some Number.zero;
     Body.meanRadius := Some Number.zero;
     Body.moons := Some [];
     Body.discoveryDate := Some "04/06/2002" |}.

(** Two rows with diameters unknown and 10000. *)
Definition row (id : nat) (name : string) (diameter : NumOrStr)
  : CelestialObject :=
  {| CelestialObject.id := id;
     CelestialObject.name := Some name;
     CelestialObject.type := "planet";
     CelestialObject.distanceFromSun := "Unknown";
     CelestialObject.diameter := diameter;
     CelestialObject.moons := 0;
     CelestialObject.discoveryYear := "Prehistoric" |}.

Definition two_rows : list CelestialObject :=
  [ row 1 "Vulcan" (Str "Unknown"); row 2 "Terra" (Num (Number.of_Z 10000)) ].

(** ** The request: the [try] block of [fetchSolarSystemData] *)

(** The parsed body of the response: an object that may have [bodies]. *)
Module Data.
Record t : Type := mk { bodies : option (list Body) }.
End Data.

(** The response of [fetch]: its [ok] flag and what [response.json()]
    settles to. *)
Module Response.
Record t : Type := mk { ok : bool; json : result Data.t }.
End Response.

(** The [try] block up to the array that is normalized.  [settled] is what
    [await fetch(...)] gives: a response, or the exception of a rejected
    request (in [Exn], [Error m] stands for any exception object with
    message [m] that is not a [TypeError]).  A status that is not ok throws
    before the body is read; reading [filter] of a missing [bodies]
    throws. *)
Definition fetchedBodies (settled : result Response.t) : result (list Body) :=
  let! response := settled in
  if negb (Response.ok response)
  then throw (Error "Network response was not ok")
  else
    let! data := Response.json response in
    match Data.bodies data with
    | Some bodies => ret bodies
    | None =>
        throw (TypeError
          "Cannot read properties of undefined (reading 'filter')")
    end.

(** The component from its mount to the settled request, with the initial
    criteria: both effects ran on the initial state, the request settled,
    and the filter effect ran on the new data. *)
Definition mounted (settled : result Response.t) : result State :=
  run initial [Fetched (fetchedBodies settled)].

(** ** What the component returns *)

(** The diameter cell: [object.diameter.toLocaleString()] for a Number (its
    digits depend on the locale and are kept symbolic), the string itself
    otherwise. *)
Inductive DiameterCell : Type :=
| Localized (x : Number.float)
| Verbatim (s : string).

(** A table row: its React key and its six cells. *)
Module TableRow.
Record t : Type := mk {
  key : nat;
  name : option string;
  type : string;
  distanceFromSun : string;
  diameter : DiameterCell;
  moons : nat;
  discoveryYear : string
}.
End TableRow.

Definition tableRow (object : CelestialObject) : TableRow.t :=
  {| TableRow.key := CelestialObject.id object;
     TableRow.name := CelestialObject.name object;
     TableRow.type := CelestialObject.type object;
     TableRow.distanceFromSun := CelestialObject.distanceFromSun object;
     TableRow.diameter :=
       match CelestialObject.diameter object with
       | Num x => Localized x
       | Str s => Verbatim s
       end;
     TableRow.moons := CelestialObject.moons object;
     TableRow.discoveryYear := CelestialObject.discoveryYear object |}.

(** The three things [App] can return: the loading line, the error line
    ("Error: " followed by [text]), or the dashboard with its three cards,
    the result count of the heading and the table rows. *)
Inductive Screen : Type :=
| LoadingScreen
| ErrorScreen (text : string)
| DashboardScreen (cards : Stats) (resultCount : nat) (rows : list TableRow.t).

(** The value [App] returns in a state; [if (error)] takes a non-empty
    string only. *)
Definition App (st : State) : Screen :=
  if loading st then LoadingScreen
  else
    match error st with
    | Some (String c text) => ErrorScreen (String c text)
    | Some "" | None =>
        DashboardScreen (stats st)
                        (length (filteredObjects st))
                        (tableRow <$> filteredObjects st)
    end.

(** ** More specification vocabulary *)

(** The upstream records a data set is made from: the first 15 kept
    ones. *)
Definition sources (bodies : list Body) : list Body :=
  take 15 (filter keeps bodies).

(** A well-formed response whose records are [bodies]. *)
Definition response_with (bodies : list Body) : result Response.t :=
  ret {| Response.ok := true;
         Response.json := ret {| Data.bodies := Some bodies |} |}.

(** The number of moons upstream lists for a body: none when the array
    is missing. *)
Definition moonCount (body : Body) : nat :=
  match Body.moons body with
  | Some entries => length entries
  | None => 0
  end.

(** What holds in every state the component reaches: the data set is an
    output of the normalizer, the rows are the filter's result for the
    current criteria, and an error text is a fetch error. *)
Definition consistent (st : State) : Prop :=
  (exists bodies, celestialObjects st = transformedData bodies)
  /\ results (celestialObjects st) (searchTerm st) (objectType st)
     = ret (filteredObjects st)
  /\ (forall text, error st = Some text ->
        exists m, text = "Failed to fetch data: " +:+ m).

(** ** The mean in IEEE-754 terms *)

(** The binary64 mean of the diameters, written with the Standard
    Library's operations at precision 53 and maximal exponent 1024: the
    sum is taken from [+0] in list order, a diameter that is not a Number
    adds [+0], and the divisor is the number of all entries. *)
Definition known_or_zero (o : CelestialObject) : spec_float :=
  match CelestialObject.diameter o with
  | Num x => x
  | Str _ => S754_zero false
  end.

Definition binary64_mean (ds : list CelestialObject) : spec_float :=
  SFdiv 53 1024
    (fold_left (SFadd 53 1024) (known_or_zero <$> ds) (S754_zero false))
    (binary_normalize 53 1024 (Z.of_nat (length ds)) 0 false).

(** A body with a mean radius of 3.075e24 km. *)
Definition giant : Body :=
  {| Body.englishName := Some "Giant";
     Body.isPlanet := true;
     Body.bodyType := "Planet";
     Body.semimajorAxis := None;
     Body.meanRadius := Some (Number.of_Z (3075 * 10 ^ 21));
     Body.moons := None;
     Body.discoveryDate := None |}.




(** * Properties *)

(** ** Rounding done by [toFixed] *)

Section NumberFacts.
Import Number.
Local Open Scope Z_scope.

Lemma den_pos x : 0 < den x.
Proof. destruct x; simpl; lia. Qed.

Lemma num_nonneg x : 0 <= num x.
Proof. destruct x; simpl; lia. Qed.

(** Adding one half and taking the floor picks the nearest integer, the
    upper one on a tie. *)
Lemma half_up_nearest (a d : Z) :
  0 < d ->
  forall k : Z,
    let n := (2 * a + d) / (2 * d) in
    Z.abs (a - n * d) <= Z.abs (a - k * d)
    /\ (Z.abs (a - k * d) = Z.abs (a - n * d) -> k <= n).
Proof.
  intros Hd k n.
  pose proof (Z.mul_div_le (2 * a + d) (2 * d) ltac:(lia)) as Hlo.
  pose proof (Z.mul_succ_div_gt (2 * a + d) (2 * d) ltac:(lia)) as Hhi.
  fold n in Hlo, Hhi.
  destruct (Z.lt_trichotomy k n) as [Hk | [Hk | Hk]].
  - assert (k * d <= n * d - d) by nia. lia.
  - subst k. lia.
  - assert (n * d + d <= k * d) by nia. lia.
Qed.

Lemma scaled_nearest f x : nearest (10 ^ Z.of_nat f) x (scaled f x).
Proof.
  intros k. unfold scaled.
  replace (2 * 10 ^ Z.of_nat f * num x + den x)
    with (2 * (10 ^ Z.of_nat f * num x) + den x) by ring.
  apply half_up_nearest, den_pos.
Qed.

Lemma scaled_nonneg f x : 0 <= scaled f x.
Proof.
  unfold scaled. pose proof (den_pos x). pose proof (num_nonneg x).
  apply Z.div_pos; [|lia].
  assert (0 <= 10 ^ Z.of_nat f) by (apply Z.pow_nonneg; lia). nia.
Qed.

(** The count of a normalized data set converts to a Number exactly. *)
Lemma of_nat_exact (n : nat) :
  (n <= 15)%nat -> num (of_nat n) = Z.of_nat n * den (of_nat n).
Proof.
  intros H. do 16 (destruct n as [|n]; [now vm_compute|]). lia.
Qed.

(** At most one integer is nearest in this sense. *)
Lemma nearest_unique scale x n n' :
  nearest scale x n -> nearest scale x n' -> n = n'.
Proof.
  intros H H'.
  destruct (H n') as [H1 H2]. destruct (H' n) as [H1' H2'].
  assert (n' <= n) by (apply H2; lia).
  assert (n <= n') by (apply H2'; lia).
  lia.
Qed.

End NumberFacts.

Section Printing.
Import Number.

Lemma app_cons c a b : String c a +:+ b = String c (a +:+ b).
Proof. reflexivity. Qed.

Lemma take_drop_str k s : take_str k s +:+ drop_str k s = s.
Proof.
  revert s. induction k as [|k IH]; intros [|c s]; simpl; try reflexivity.
  rewrite app_cons. f_equal. apply IH.
Qed.

Lemma length_drop_str k s :
  String.length (drop_str k s) = String.length s - k.
Proof.
  revert s. induction k as [|k IH]; intros [|c s]; simpl; auto.
Qed.

Lemma take_str_nonempty k s : 0 < k -> s <> "" -> take_str k s <> "".
Proof. destruct k, s; simpl; try lia; congruence. Qed.

Lemma length_app_str a b :
  String.length (a +:+ b) = String.length a + String.length b.
Proof.
  induction a as [|c a IH]; [reflexivity|].
  rewrite app_cons. simpl. now rewrite IH.
Qed.

Lemma length_zeros k : String.length (zeros k) = k.
Proof. induction k; simpl; congruence. Qed.

Lemma to_uint_nonnil n : N.to_uint n <> Decimal.Nil.
Proof.
  destruct n as [|p]; simpl;
    [congruence | apply DecimalPos.Unsigned.to_uint_nonnil].
Qed.

Lemma digits_reads n : (0 <= n)%Z -> reads (digits n) n.
Proof.
  intros Hn. exists (N.to_uint (Z.to_N n)). split.
  - apply NilZero.usu, to_uint_nonnil.
  - rewrite DecimalN.Unsigned.of_to. lia.
Qed.

(** Leading zeros do not change what a digit string reads as. *)
Lemma zeros_reads k s n : reads s n -> reads (zeros k +:+ s) n.
Proof.
  intros Hs. induction k as [|k IH]; simpl; [exact Hs|].
  destruct IH as (d & Hd & Hv). exists (Decimal.D0 d). split; [|exact Hv].
  rewrite app_cons. unfold NilZero.uint_of_string in *. simpl.
  destruct (zeros k +:+ s) eqn:E; [discriminate|].
  now rewrite Hd.
Qed.

Lemma fixed_digits_two n :
  (0 <= n)%Z -> two_fraction_digits (fixed_digits 2 n) n.
Proof.
  intros Hn. unfold fixed_digits.
  set (m := if String.length (digits n) <=? 2
            then zeros (2 + 1 - String.length (digits n)) +:+ digits n
            else digits n).
  assert (Hlen : 3 <= String.length m).
  { subst m. destruct (Nat.leb_spec (String.length (digits n)) 2).
    - rewrite length_app_str, length_zeros. lia.
    - lia. }
  assert (Hread : reads m n).
  { subst m. destruct (String.length (digits n) <=? 2).
    - apply zeros_reads, digits_reads, Hn.
    - apply digits_reads, Hn. }
  simpl.
  exists (take_str (String.length m - 2) m),
         (drop_str (String.length m - 2) m).
  split; [reflexivity|]. split; [|split].
  - apply take_str_nonempty; [lia|]. destruct m; simpl in *; [lia|congruence].
  - rewrite length_drop_str. lia.
  - now rewrite take_drop_str.
Qed.

(** [toFixed(2)] in its fixed-notation range: an optional minus sign, then
    the two-digit decimal nearest to the magnitude, a tie going up. *)
Lemma toFixed_2_rounds x :
  fixed_range x -> rounded_to_hundredths x (toFixed 2 x).
Proof.
  intros [Hfin Hlt]. exists (scaled 2 x). split; [|split].
  - assert (Hb : (10 ^ 21 * den x <=? num x)%Z = false) by lia.
    destruct x as [s | s | | s m e]; try discriminate;
      unfold toFixed; now rewrite Hb.
  - apply (scaled_nearest 2).
  - apply fixed_digits_two, scaled_nonneg.
Qed.

End Printing.

(** The specification's worked example: Earth. *)
Example earth_row :
  transformedData [earth] =
    [ {| CelestialObject.id := 1;
         CelestialObject.name := Some "Earth";
         CelestialObject.type := "planet";
         CelestialObject.distanceFromSun := "1.00";
         CelestialObject.diameter := Num (Number.of_Z 12742);
         CelestialObject.moons := 2;
         CelestialObject.discoveryYear := "Prehistoric" |} ].
Proof. now vm_compute. Qed.

(** Beyond the fixed-notation range [toFixed] prints what [toString]
    prints; within it, it rounds the binary64 value, which for
    [150345990 / 149598000] lies just below 1.005. *)
Example toFixed_samples :
  Number.toFixed 2 (Number.of_Z (10 ^ 21)) = "1e+21"
  /\ Number.toFixed 2 (Number.div (Number.of_Z (10 ^ 30)) KM_PER_AU)
     = "6.684581344670383e+21"
  /\ Number.toFixed 2 (Number.of_Z (10 ^ 21 - 100000))
     = "999999999999999868928.00"
  /\ Number.toFixed 2 (Number.div (Number.of_Z 150345990) KM_PER_AU)
     = "1.00"
  /\ Number.toFixed 2 (Number.div (Number.of_Z (-1)) (Number.of_Z 1000))
     = "-0.00".
Proof. repeat split; now vm_compute. Qed.

(** ** Substring search and case folding *)

Section StringFacts.
Import JsString.

Lemma prefix_spec t s :
  String.prefix t s = true <-> exists post, s = t +:+ post.
Proof.
  revert s. induction t as [|a t IH]; intros [|b s]; simpl.
  - split; [intros _; now exists "" | reflexivity].
  - split; [intros _; now exists (String b s) | reflexivity].
  - split; [discriminate | intros [post H]; discriminate].
  - destruct (ascii_dec a b) as [->|Hne].
    + rewrite IH. split; intros [post H]; exists post.
      * rewrite app_cons. now f_equal.
      * rewrite app_cons in H. now inversion H.
    + split; [discriminate|].
      intros [post H]. rewrite app_cons in H. inversion H. congruence.
Qed.

Lemma includes_nil t : includes "" t = String.prefix t "".
Proof. simpl. apply orb_false_r. Qed.

Lemma includes_cons c s t :
  includes (String c s) t = String.prefix t (String c s) || includes s t.
Proof. reflexivity. Qed.

Lemma includes_spec s t : includes s t = true <-> contains s t.
Proof.
  induction s as [|c s IH].
  - rewrite includes_nil, prefix_spec. split.
    + intros [post H]. now exists "", post.
    + intros ([|c pre] & post & H); [now exists post | discriminate].
  - rewrite includes_cons, orb_true_iff, prefix_spec, IH. split.
    + intros [[post H] | (pre & post & H)].
      * now exists "", post.
      * exists (String c pre), post. rewrite app_cons. now f_equal.
    + intros ([|c' pre] & post & H).
      * left. now exists post.
      * right. rewrite app_cons in H. inversion H. now exists pre, post.
Qed.

Lemma toLowerCase_app a b :
  toLowerCase (a +:+ b) = toLowerCase a +:+ toLowerCase b.
Proof.
  induction a as [|c a IH]; [reflexivity|].
  rewrite app_cons. simpl. now rewrite app_cons, IH.
Qed.

(** Case folding works letter by letter, so a split of the folded string
    is the image of a split of the original. *)
Lemma toLowerCase_split s a b :
  toLowerCase s = a +:+ b ->
  exists a' b', s = a' +:+ b' /\ toLowerCase a' = a /\ toLowerCase b' = b.
Proof.
  revert s. induction a as [|c a IH]; intros s H.
  - now exists "", s.
  - destruct s as [|c' s]; [discriminate|].
    rewrite app_cons in H. simpl in H. inversion H as [[Hc Hs]].
    destruct (IH s Hs) as (a' & b' & -> & <- & <-).
    now exists (String c' a'), b'.
Qed.

Lemma has_lower_spec c :
  has_lower (nat_of_ascii c) = true <-> is_upper c.
Proof.
  unfold has_lower, is_upper.
  rewrite orb_true_iff, !andb_true_iff, negb_true_iff, !Nat.leb_le,
    Nat.eqb_neq.
  tauto.
Qed.

Lemma lower_ascii_upper c :
  is_upper c -> lower_ascii c = ascii_of_nat (nat_of_ascii c + 32).
Proof.
  intros H. unfold lower_ascii. apply has_lower_spec in H. now rewrite H.
Qed.

Lemma lower_ascii_other c : ~ is_upper c -> lower_ascii c = c.
Proof.
  intros H. unfold lower_ascii.
  destruct (has_lower (nat_of_ascii c)) eqn:E; [|reflexivity].
  apply has_lower_spec in E. contradiction.
Qed.

Lemma is_upper_dec c : is_upper c \/ ~ is_upper c.
Proof. unfold is_upper. lia. Qed.

Lemma nat_of_ascii_inj a b : nat_of_ascii a = nat_of_ascii b -> a = b.
Proof.
  intros H. rewrite <- (ascii_nat_embedding a), <- (ascii_nat_embedding b).
  now rewrite H.
Qed.

Lemma nat_of_lower_upper c :
  is_upper c -> nat_of_ascii (lower_ascii c) = nat_of_ascii c + 32.
Proof.
  intros H. rewrite (lower_ascii_upper c H).
  apply nat_ascii_embedding. unfold is_upper in H. lia.
Qed.

(** Two characters fold to the same one exactly when they are the same
    letter. *)
Lemma lower_ascii_eq_iff a b :
  lower_ascii a = lower_ascii b <-> same_letter a b.
Proof.
  unfold same_letter.
  destruct (is_upper_dec a) as [Ha | Ha]; destruct (is_upper_dec b) as [Hb | Hb].
  - pose proof (nat_of_lower_upper a Ha). pose proof (nat_of_lower_upper b Hb).
    unfold is_upper in Ha, Hb. split.
    + intros E. left. apply nat_of_ascii_inj.
      apply (f_equal nat_of_ascii) in E. lia.
    + intros [-> | [[_ E] | [_ E]]]; [reflexivity | lia | lia].
  - pose proof (nat_of_lower_upper a Ha).
    rewrite (lower_ascii_other b Hb). split.
    + intros E. right. left. split; [exact Ha|]. rewrite <- E. lia.
    + intros [-> | [[_ E] | [Hb' _]]]; [contradiction | | contradiction].
      apply nat_of_ascii_inj. lia.
  - pose proof (nat_of_lower_upper b Hb).
    rewrite (lower_ascii_other a Ha). split.
    + intros E. right. right. split; [exact Hb|]. rewrite E. lia.
    + intros [-> | [[Ha' _] | [_ E]]]; [contradiction | contradiction |].
      apply nat_of_ascii_inj. lia.
  - rewrite (lower_ascii_other a Ha), (lower_ascii_other b Hb). split.
    + now left.
    + intros [-> | [[Ha' _] | [Hb' _]]]; [reflexivity | contradiction..].
Qed.

Lemma toLowerCase_eq_iff s t :
  toLowerCase s = toLowerCase t <-> equal_ignoring_case s t.
Proof.
  revert t. induction s as [|a s IH]; intros [|b t]; simpl;
    try (split; [discriminate | contradiction]).
  - split; auto.
  - rewrite <- IH, <- lower_ascii_eq_iff. split.
    + now intros [= -> ->].
    + now intros [-> ->].
Qed.

(** A Latin-1 capital folds like an ASCII one: searching the unit U+00E9
    finds it in "Eris" spelled with U+00C9. *)
Example toLowerCase_latin1 :
  toLowerCase (String (ascii_of_nat 201) "RIS")
  = String (ascii_of_nat 233) "ris"
  /\ includes (toLowerCase (String (ascii_of_nat 201) "ris"))
              (toLowerCase (String (ascii_of_nat 233) ""))
     = true
  /\ toLowerCase (String (ascii_of_nat 215) "") = String (ascii_of_nat 215) "".
Proof. repeat split; now vm_compute. Qed.

(** The search the filter performs is a case-insensitive substring test. *)
Lemma includes_ignoring_case name search :
  includes (toLowerCase name) (toLowerCase search) = true
  <-> contains_ignoring_case name search.
Proof.
  rewrite includes_spec. split.
  - intros (pre & post & H).
    apply toLowerCase_split in H as (pre' & rest & -> & _ & H).
    apply toLowerCase_split in H as (mid & post' & -> & Hmid & _).
    exists pre', mid, post'. split; [reflexivity|].
    now apply toLowerCase_eq_iff.
  - intros (pre & mid & post & -> & Hmid).
    apply toLowerCase_eq_iff in Hmid.
    exists (toLowerCase pre), (toLowerCase post).
    now rewrite !toLowerCase_app, Hmid.
Qed.

Lemma contains_ignoring_case_empty name : contains_ignoring_case name "".
Proof. exists "", "", name. now split. Qed.

End StringFacts.

(** ** Selection *)

Section Selected.
Context {A : Type} (P : A -> Prop).

Lemma selected_sublist xs ys : selected P xs ys -> ys `sublist_of` xs.
Proof. induction 1; auto with selection. Qed.

Lemma selected_elem_of xs ys x :
  selected P xs ys -> (x ∈ ys <-> x ∈ xs /\ P x).
Proof.
  induction 1 as [|y xs ys Hy _ IH|y xs ys Hy _ IH].
  - split; [intros H | intros [H _]]; now apply elem_of_nil in H.
  - rewrite !elem_of_cons, IH. split.
    + intros [-> | [? ?]]; auto.
    + intros [[-> | ?] ?]; auto.
  - rewrite elem_of_cons, IH. split.
    + intros [? ?]; auto.
    + intros [[-> | ?] ?]; [contradiction | auto].
Qed.

(** The relation leaves no choice: it determines the selection. *)
Lemma selected_unique xs ys ys' :
  selected P xs ys -> selected P xs ys' -> ys = ys'.
Proof.
  intros H. revert ys'.
  induction H as [|y xs ys Hy _ IH|y xs ys Hy _ IH]; intros ys' H';
    inversion H'; subst; try contradiction; auto.
  f_equal. auto.
Qed.

Lemma selected_all xs : Forall P xs -> selected P xs xs.
Proof. induction 1; auto with selection. Qed.

End Selected.

(** Tests that agree select the same elements. *)
Lemma selected_iff {A} (P Q : A -> Prop) (xs ys : list A) :
  (forall x, P x <-> Q x) -> selected P xs ys -> selected Q xs ys.
Proof.
  intros HPQ. induction 1; [constructor | |].
  - apply selected_keep; [now apply HPQ | done].
  - apply selected_skip; [now rewrite <- HPQ | done].
Qed.

(** ** The normalizer *)

Section Normalizer.
Implicit Types (bodies survivors : list Body) (body : Body).
Implicit Types (o : CelestialObject) (i : nat).

Lemma selected_filter_keeps bodies : selected keeps bodies (filter keeps bodies).
Proof.
  induction bodies as [|body bodies IH]; [constructor|].
  destruct (decide (keeps body)) as [Hk | Hk].
  - rewrite filter_cons_True by done. auto with selection.
  - rewrite filter_cons_False by done. auto with selection.
Qed.

Lemma selected_keeps_filter bodies survivors :
  selected keeps bodies survivors -> survivors = filter keeps bodies.
Proof.
  intros H. apply (selected_unique keeps bodies); [exact H|].
  apply selected_filter_keeps.
Qed.

Lemma transformedData_lookup bodies i :
  transformedData bodies !! i =
  if decide (i < 15) then transform i <$> filter keeps bodies !! i else None.
Proof.
  unfold transformedData. rewrite list_lookup_imap, lookup_take.
  now destruct (decide (i < 15)).
Qed.

Lemma transformedData_length bodies :
  length (transformedData bodies) = 15 `min` length (filter keeps bodies).
Proof. unfold transformedData. now rewrite length_imap, length_take. Qed.

Lemma transformedData_id bodies i o :
  transformedData bodies !! i = Some o -> CelestialObject.id o = i + 1.
Proof.
  rewrite transformedData_lookup. destruct (decide (i < 15)); [|done].
  destruct (filter keeps bodies !! i); simpl; [|done].
  now intros [= <-].
Qed.

Lemma transformedData_ids bodies :
  CelestialObject.id <$> transformedData bodies
  = seq 1 (length (transformedData bodies)).
Proof.
  apply list_eq. intros i. rewrite list_lookup_fmap.
  destruct (transformedData bodies !! i) as [o|] eqn:E; simpl.
  - pose proof (lookup_lt_Some _ _ _ E) as Hlt.
    rewrite (transformedData_id _ _ _ E).
    symmetry. rewrite lookup_seq. split; [lia | done].
  - symmetry. apply lookup_ge_None. rewrite length_seq.
    now apply lookup_ge_None.
Qed.

(** The row made from the [i]-th kept record. *)
Lemma transformedData_row bodies survivors i body :
  selected keeps bodies survivors -> i < 15 ->
  survivors !! i = Some body ->
  transformedData bodies !! i = Some (transform i body).
Proof.
  intros Hsel Hi Hb. rewrite (selected_keeps_filter _ _ Hsel) in Hb.
  rewrite transformedData_lookup, Hb. now destruct (decide (i < 15)).
Qed.

Lemma distanceFromSun_truthy index body a :
  Body.semimajorAxis body = Some a -> Number.truthy a = true ->
  CelestialObject.distanceFromSun (transform index body)
  = Number.toFixed 2 (Number.div a KM_PER_AU).
Proof. intros Ha Ht. simpl. now rewrite Ha, Ht. Qed.

Lemma distanceFromSun_falsy index body :
  Body.semimajorAxis body = None
  \/ (exists a, Body.semimajorAxis body = Some a /\ Number.truthy a = false) ->
  CelestialObject.distanceFromSun (transform index body) = "Unknown".
Proof. intros [H | (a & H & Ht)]; simpl; rewrite H; [done | now rewrite Ht]. Qed.

Lemma diameter_truthy index body r :
  Body.meanRadius body = Some r -> Number.truthy r = true ->
  CelestialObject.diameter (transform index body)
  = Num (Number.mul r (Number.of_Z 2)).
Proof. intros Hr Ht. simpl. now rewrite Hr, Ht. Qed.

Lemma diameter_falsy index body :
  Body.meanRadius body = None
  \/ (exists r, Body.meanRadius body = Some r /\ Number.truthy r = false) ->
  CelestialObject.diameter (transform index body) = Str "Unknown".
Proof. intros [H | (r & H & Ht)]; simpl; rewrite H; [done | now rewrite Ht]. Qed.

(** The rows are named when the kept records are. *)
Lemma transformedData_named bodies :
  Forall (fun body => keeps body -> is_Some (Body.englishName body)) bodies ->
  named (transformedData bodies).
Proof.
  intros Hall. apply Forall_forall. intros o Ho.
  apply elem_of_lookup_imap_1 in Ho as (i & body & -> & Hb).
  apply lookup_take_Some in Hb as [Hb _].
  apply list_elem_of_lookup_2, list_elem_of_filter in Hb as [Hk Hin].
  rewrite Forall_forall in Hall. now apply Hall.
Qed.

Lemma is_zero_falsy x : is_zero x -> Number.truthy x = false.
Proof. now intros [s ->]. Qed.

End Normalizer.



(** C5: every row the normalizer emits carries one of the two type tags,
    and the data set never has more than 15 entries. *)
Theorem transformedData_types_and_bound (bodies : list Body) :
  Forall (fun o => CelestialObject.type o = "planet"
                   \/ CelestialObject.type o = "dwarf planet")
         (transformedData bodies)
  /\ length (transformedData bodies) <= 15.
Proof.
  split.
  - apply Forall_forall. intros o Ho.
    apply elem_of_lookup_imap_1 in Ho as (i & body & -> & _).
    simpl. destruct (Body.isPlanet body); auto.
  - rewrite transformedData_length. lia.
Qed.

(** C6, as the code has it: for the record kept at position [i], a
    semi-major axis that is present and truthy (a Number other than 0)
    gives [toFixed(2)] of the binary64 quotient by 149598000, which for a
    quotient in the fixed-notation range is the decimal with two fraction
    digits nearest to it, a tie going away from zero; an absent or falsy
    one gives "Unknown".  A present, truthy mean radius gives the Number
    [meanRadius * 2], not rounded to fraction digits; an absent or falsy
    one gives "Unknown". *)
Theorem distance_and_diameter_of_truthy_fields
    (bodies survivors : list Body) (i : nat) (body : Body) :
  selected keeps bodies survivors -> i < 15 ->
  survivors !! i = Some body ->
  exists o,
    transformedData bodies !! i = Some o
    /\ (forall a, Body.semimajorAxis body = Some a ->
          Number.truthy a = true ->
          CelestialObject.distanceFromSun o
            = Number.toFixed 2 (Number.div a KM_PER_AU)
          /\ (fixed_range (Number.div a KM_PER_AU) ->
              rounded_to_hundredths (Number.div a KM_PER_AU)
                                    (CelestialObject.distanceFromSun o)))
    /\ (Body.semimajorAxis body = None
        \/ (exists a, Body.semimajorAxis body = Some a
                      /\ Number.truthy a = false) ->
        CelestialObject.distanceFromSun o = "Unknown")
    /\ (forall r, Body.meanRadius body = Some r ->
          Number.truthy r = true ->
          CelestialObject.diameter o = Num (Number.mul r (Number.of_Z 2)))
    /\ (Body.meanRadius body = None
        \/ (exists r, Body.meanRadius body = Some r
                      /\ Number.truthy r = false) ->
        CelestialObject.diameter o = Str "Unknown").
Proof.
  intros Hsel Hi Hb. exists (transform i body).
  split; [now apply (transformedData_row bodies survivors)|].
  split; [|split; [|split]].
  - intros a Ha Ht.
    rewrite (distanceFromSun_truthy i body a Ha Ht).
    split; [reflexivity | apply toFixed_2_rounds].
  - apply distanceFromSun_falsy.
  - apply diameter_truthy.
  - apply diameter_falsy.
Qed.

Lemma distance_and_diameter_of_truthy_fields_witness :
  exists o,
    transformedData [earth] !! 0 = Some o
    /\ CelestialObject.distanceFromSun o = "1.00"
    /\ rounded_to_hundredths
         (Number.div (Number.of_Z 149598023) KM_PER_AU)
         (CelestialObject.distanceFromSun o)
    /\ CelestialObject.diameter o = Num (Number.of_Z 12742).
Proof.
  destruct (distance_and_diameter_of_truthy_fields [earth] [earth] 0 earth)
    as (o & Ho & Hdist & _ & Hdiam & _).
  - apply selected_all. constructor; [now left | constructor].
  - lia.
  - reflexivity.
  - exists o. split; [exact Ho|].
    destruct (Hdist (Number.of_Z 149598023) eq_refl eq_refl) as [Hd Hr].
    split; [rewrite Hd; now vm_compute|].
    split; [apply Hr; split; now vm_compute|].
    rewrite (Hdiam (Number.of_Z 6371) eq_refl eq_refl). now vm_compute.
Defined.

(** C6 as stated fails: a semi-major axis and a mean radius that are
    present with the value 0 give "Unknown", not the rounded quotient
    "0.00" and not the Number 0. *)
Lemma present_zero_is_not_rounded :
  keeps zero_sized
  /\ Body.semimajorAxis zero_sized = Some Number.zero
  /\ Body.meanRadius zero_sized = Some Number.zero
  /\ exists o,
       transformedData [zero_sized] = [o]
       /\ CelestialObject.distanceFromSun o = "Unknown"
       /\ Number.toFixed 2 (Number.div Number.zero KM_PER_AU) = "0.00"
       /\ CelestialObject.distanceFromSun o
          <> Number.toFixed 2 (Number.div Number.zero KM_PER_AU)
       /\ CelestialObject.diameter o = Str "Unknown"
       /\ CelestialObject.diameter o
          <> Num (Number.mul Number.zero (Number.of_Z 2)).
Proof.
  split; [now right|]. split; [reflexivity|]. split; [reflexivity|].
  exists (transform 0 zero_sized).
  split; [reflexivity|]. split; [reflexivity|].
  split; [now vm_compute|]. split; [now vm_compute|].
  split; [reflexivity | discriminate].
Qed.

(** C10: for the record kept at position [i], a semi-major axis that is
    present and equal to 0 gives the distance "Unknown", and a mean radius
    that is present and equal to 0 gives the diameter "Unknown". *)
Theorem present_zero_gives_unknown
    (bodies survivors : list Body) (i : nat) (body : Body) :
  selected keeps bodies survivors -> i < 15 ->
  survivors !! i = Some body ->
  exists o,
    transformedData bodies !! i = Some o
    /\ (forall a, Body.semimajorAxis body = Some a -> is_zero a ->
          CelestialObject.distanceFromSun o = "Unknown")
    /\ (forall r, Body.meanRadius body = Some r -> is_zero r ->
          CelestialObject.diameter o = Str "Unknown").
Proof.
  intros Hsel Hi Hb. exists (transform i body).
  split; [now apply (transformedData_row bodies survivors)|]. split.
  - intros a Ha Hz. apply distanceFromSun_falsy. right.
    exists a. split; [exact Ha | now apply is_zero_falsy].
  - intros r Hr Hz. apply diameter_falsy. right.
    exists r. split; [exact Hr | now apply is_zero_falsy].
Qed.

Lemma present_zero_gives_unknown_witness :
  exists o,
    transformedData [earth; zero_sized] !! 1 = Some o
    /\ CelestialObject.distanceFromSun o = "Unknown"
    /\ CelestialObject.diameter o = Str "Unknown".
Proof.
  destruct (present_zero_gives_unknown
              [earth; zero_sized] [earth; zero_sized] 1 zero_sized)
    as (o & Ho & Hdist & Hdiam).
  - apply selected_all.
    constructor; [now left | constructor; [now right | constructor]].
  - lia.
  - reflexivity.
  - exists o. split; [exact Ho|]. split.
    + apply (Hdist Number.zero eq_refl). now exists false.
    + apply (Hdiam Number.zero eq_refl). now exists false.
Defined.

(** ** The view filter *)

Section ViewFilter.
Implicit Types (ds rows : list CelestialObject) (o : CelestialObject).
Implicit Types (s c : string).

Lemma matches_named s c o n :
  CelestialObject.name o = Some n ->
  matches s c o =
  ret (JsString.includes (JsString.toLowerCase n) (JsString.toLowerCase s)
       && (String.eqb c "all" || String.eqb (CelestialObject.type o) c)).
Proof. intros H. unfold matches, name_toLowerCase. now rewrite H. Qed.

Lemma matches_unnamed s c o :
  CelestialObject.name o = None -> matches s c o = throw undefined_name_error.
Proof. intros H. unfold matches, name_toLowerCase. now rewrite H. Qed.

(** The callback answers [true] exactly on the visible objects. *)
Lemma matches_true_iff s c o : matches s c o = ret true <-> visible s c o.
Proof.
  unfold visible.
  destruct (CelestialObject.name o) as [n|] eqn:E.
  - rewrite (matches_named _ _ _ _ E). unfold ret. split.
    + intros [= H]. apply andb_true_iff in H as [H1 H2]. split.
      * exists n. split; [done|]. now apply includes_ignoring_case.
      * apply orb_true_iff in H2 as [H2 | H2];
          apply String.eqb_eq in H2; auto.
    + intros [(n' & [= <-] & H1) H2]. f_equal.
      apply andb_true_iff. split.
      * now apply includes_ignoring_case.
      * apply orb_true_iff.
        destruct H2 as [H2 | H2]; [left | right]; now apply String.eqb_eq.
  - rewrite (matches_unnamed _ _ _ E). split; [discriminate|].
    now intros [(n & [=] & _) _].
Qed.

(** On a data set whose names are all strings the filter does not throw,
    and returns the selection of the visible objects. *)
Lemma results_named ds s c :
  named ds ->
  exists rows, results ds s c = ret rows /\ selected (visible s c) ds rows.
Proof.
  unfold results. induction 1 as [|o ds [n Hn] _ (rows & IH & Hsel)].
  - exists []. split; [reflexivity | constructor].
  - simpl. rewrite IH.
    pose proof (matches_true_iff s c o) as Hv.
    rewrite (matches_named _ _ _ _ Hn) in *. unfold ret in *.
    destruct (JsString.includes _ _ && _); simpl.
    + exists (o :: rows). split; [reflexivity|].
      constructor; [now apply Hv | exact Hsel].
    + exists rows. split; [reflexivity|].
      constructor; [|exact Hsel]. rewrite <- Hv. congruence.
Qed.

(** One object without a name makes the whole call throw. *)
Lemma results_unnamed ds s c o :
  o ∈ ds -> CelestialObject.name o = None ->
  results ds s c = throw undefined_name_error.
Proof.
  intros Hin Hname. unfold results.
  induction ds as [|x ds IH]; [now apply elem_of_nil in Hin|].
  simpl. destruct (CelestialObject.name x) as [n|] eqn:E.
  - rewrite (matches_named _ _ _ _ E). simpl.
    apply elem_of_cons in Hin as [-> | Hin]; [congruence|].
    now rewrite (IH Hin).
  - now rewrite (matches_unnamed _ _ _ E).
Qed.

(** Only the case-folded search term reaches the test. *)
Lemma results_fold_search ds s s' c :
  JsString.toLowerCase s = JsString.toLowerCase s' ->
  results ds s c = results ds s' c.
Proof.
  intros H. unfold results. induction ds as [|o ds IH]; [done|].
  simpl. rewrite IH. unfold matches. now rewrite H.
Qed.

Lemma visible_all o :
  is_Some (CelestialObject.name o) -> visible "" "all" o.
Proof.
  intros [n Hn]. split; [|now left].
  exists n. split; [done | apply contains_ignoring_case_empty].
Qed.

End ViewFilter.

(** C4: on the normalizer's output for Earth and a planet without an
    English name, searching "EARTH" should show the Earth row (it is in the
    data set, its name contains the term up to case, and the selection is
    "all"); instead the filter throws and there is no visible subset. *)
Theorem search_throws_with_nameless_row :
  (exists o,
     transformedData [earth; nameless_planet] !! 0 = Some o
     /\ CelestialObject.name o = Some "Earth"
     /\ visible "EARTH" "all" o)
  /\ results (transformedData [earth; nameless_planet]) "EARTH" "all"
     = throw undefined_name_error
  /\ forall rows,
       results (transformedData [earth; nameless_planet]) "EARTH" "all"
       <> ret rows.
Proof.
  assert (Hthrow :
    results (transformedData [earth; nameless_planet]) "EARTH" "all"
    = throw undefined_name_error).
  { apply (results_unnamed _ _ _ (transform 1 nameless_planet));
      [|reflexivity].
    apply list_elem_of_lookup_2 with 1. reflexivity. }
  split; [|split; [exact Hthrow|]].
  - exists (transform 0 earth). split; [reflexivity|]. split; [reflexivity|].
    apply matches_true_iff.
    rewrite (matches_named "EARTH" "all" (transform 0 earth) "Earth" eq_refl).
    reflexivity.
  - intros rows H. rewrite Hthrow in H. discriminate.
Qed.

(** C8: on the normalizer's output for Earth and a planet without an
    English name, the filter with the empty search term and the selection
    "all" should return the data set itself; instead it throws. *)
Theorem identity_filter_throws_with_nameless_row :
  length (transformedData [earth; nameless_planet]) = 2
  /\ results (transformedData [earth; nameless_planet]) "" "all"
     = throw undefined_name_error
  /\ results (transformedData [earth; nameless_planet]) "" "all"
     <> ret (transformedData [earth; nameless_planet]).
Proof.
  assert (Hthrow :
    results (transformedData [earth; nameless_planet]) "" "all"
    = throw undefined_name_error).
  { apply (results_unnamed _ _ _ (transform 1 nameless_planet));
      [|reflexivity].
    apply list_elem_of_lookup_2 with 1. reflexivity. }
  split; [reflexivity|]. split; [exact Hthrow|].
  rewrite Hthrow. discriminate.
Qed.

(** C9: some record survives the normalizer's filter without an English
    name; its row has an undefined name, and every filter call on a data
    set that contains this row throws while lower-casing the name. *)
Theorem unnamed_record_breaks_filter :
  exists body o,
    keeps body
    /\ Body.englishName body = None
    /\ transformedData [body] = [o]
    /\ CelestialObject.name o = None
    /\ forall ds searchTerm objectType,
         o ∈ ds ->
         results ds searchTerm objectType = throw undefined_name_error.
Proof.
  exists nameless_planet, (transform 0 nameless_planet).
  split; [now left|]. split; [done|]. split; [done|]. split; [done|].
  intros ds s c Hin. now apply (results_unnamed ds s c _ Hin).
Qed.

Lemma unnamed_record_breaks_filter_witness :
  exists o,
    CelestialObject.name o = None
    /\ results (transformedData [earth] ++ [o]) "earth" "all"
       = throw undefined_name_error.
Proof.
  destruct unnamed_record_breaks_filter as (body & o & _ & _ & _ & Hname & H).
  exists o. split; [exact Hname|].
  apply H, elem_of_app. right. apply list_elem_of_singleton. reflexivity.
Defined.

(** C7: the record without a name goes through the normalizer, and the
    filter then throws on the normalizer's own output. *)
Theorem filter_throws_on_normalized_data :
  transformedData [nameless_planet] =
    [ {| CelestialObject.id := 1;
         CelestialObject.name := None;
         CelestialObject.type := "planet";
         CelestialObject.distanceFromSun := "Unknown";
         CelestialObject.diameter := Str "Unknown";
         CelestialObject.moons := 0;
         CelestialObject.discoveryYear := "Prehistoric" |} ]
  /\ results (transformedData [nameless_planet]) "" "all"
     = throw undefined_name_error.
Proof. split; reflexivity. Qed.

(** ** The statistics *)

Section Statistics.
Implicit Types (ds : list CelestialObject) (st : State).

Lemma fold_left_fmap_r {A B C} (f : C -> B -> C) (g : A -> B)
    (l : list A) (c : C) :
  fold_left (fun acc x => f acc (g x)) l c = fold_left f (g <$> l) c.
Proof. revert c. induction l as [|x l IH]; intros c; simpl; auto. Qed.

Lemma sumDiameters_contributions ds :
  sumDiameters ds =
  fold_left Number.add
            ((fun o => unknown_as_zero (CelestialObject.diameter o)) <$> ds)
            Number.zero.
Proof.
  unfold sumDiameters.
  now rewrite <- (fold_left_fmap_r Number.add
    (fun o => unknown_as_zero (CelestialObject.diameter o))).
Qed.

Lemma averageDiameter_nonempty ds :
  ds <> [] ->
  averageDiameter ds = Str (Number.toFixed 2 (mean_diameter ds)).
Proof.
  intros Hne. unfold averageDiameter, mean_diameter, totalObjects.
  destruct ds as [|o ds]; [done|]. simpl Nat.ltb. cbv iota.
  now rewrite sumDiameters_contributions.
Qed.

Lemma filterEffect_celestialObjects st st' :
  filterEffect st = ret st' -> celestialObjects st' = celestialObjects st.
Proof.
  unfold filterEffect.
  destruct (results _ _ _) as [e | rows]; simpl; [discriminate|].
  now intros [= <-].
Qed.

Lemma step_criteria_celestialObjects st ev st' :
  is_criteria ev -> step st ev = ret st' ->
  celestialObjects st' = celestialObjects st.
Proof.
  intros Hev Hstep. apply filterEffect_celestialObjects in Hstep.
  rewrite Hstep. now destruct ev.
Qed.

Lemma run_criteria_celestialObjects evs st st' :
  Forall is_criteria evs -> run st evs = ret st' ->
  celestialObjects st' = celestialObjects st.
Proof.
  intros Hevs. revert st. induction Hevs as [|ev evs Hev _ IH]; intros st.
  - now intros [= <-].
  - simpl. destruct (step st ev) as [e | st1] eqn:E; simpl; [discriminate|].
    intros Hrun. rewrite (IH _ Hrun).
    now apply (step_criteria_celestialObjects st ev).
Qed.

End Statistics.

Section Mean.
Implicit Types (ds pre post : list CelestialObject) (o : CelestialObject).

Lemma mean_diameter_binary64 ds : mean_diameter ds = binary64_mean ds.
Proof. reflexivity. Qed.

Lemma SFadd_zero_r x :
  x <> S754_zero true -> SFadd 53 1024 x (S754_zero false) = x.
Proof. destruct x as [[|]| | |]; simpl; congruence. Qed.

Lemma SFadd_zero_l x :
  x <> S754_zero true -> SFadd 53 1024 (S754_zero false) x = x.
Proof. destruct x as [[|]| | |]; simpl; congruence. Qed.

(** Rows without a numeric diameter leave the running sum as it is. *)
Lemma fold_unknown_rows ds x :
  x <> S754_zero true ->
  Forall (fun o => exists s, CelestialObject.diameter o = Str s) ds ->
  fold_left (SFadd 53 1024) (known_or_zero <$> ds) x = x.
Proof.
  intros Hx. induction 1 as [|o ds [s Hs] _ IH]; [reflexivity|].
  assert (Ho : known_or_zero o = S754_zero false)
    by (unfold known_or_zero; now rewrite Hs).
  rewrite fmap_cons. cbn [fold_left].
  rewrite Ho, SFadd_zero_r by exact Hx. exact IH.
Qed.

(** The string "6.15e+24" has no point before its last two characters. *)
Lemma exponent_form_not_fixed n : ~ two_fraction_digits "6.15e+24" n.
Proof.
  intros (a & b & Hs & _ & Hb & _).
  assert (Ha : String.length a = 5).
  { apply (f_equal String.length) in Hs.
    rewrite !length_app_str in Hs. simpl in Hs. lia. }
  do 5 (destruct a as [|? a]; [discriminate|]).
  destruct a; [|discriminate].
  cbv [String.append] in Hs. discriminate.
Qed.

End Mean.

(** C1, as the code has it: the average-diameter card is the number 0 for
    an empty data set; otherwise it is [toFixed(2)] of the binary64 mean:
    the sum of the diameters in list order, a diameter that is not a Number
    adding 0, divided by the number of all entries.  When that mean is
    finite and below 10^21 in magnitude, the card is the decimal with two
    fraction digits nearest to it, a tie going away from zero.  The count
    of a normalized data set (at most 15) is a Number without error.  With
    one numeric diameter [d] among unknown ones the card is [toFixed(2)] of
    [d] divided by the number of entries; diameters unknown and 10000 give
    "5000.00", and 4879, unknown, 12104 give "5661.00". *)
Theorem averageDiameter_mean (ds : list CelestialObject) :
  averageDiameter [] = Num (S754_zero false)
  /\ (ds <> [] ->
      averageDiameter ds = Str (Number.toFixed 2 (binary64_mean ds)))
  /\ (ds <> [] -> fixed_range (binary64_mean ds) ->
      exists s,
        averageDiameter ds = Str s
        /\ rounded_to_hundredths (binary64_mean ds) s)
  /\ (length ds <= 15 ->
      Number.num (Number.of_nat (length ds))
      = (Z.of_nat (length ds) * Number.den (Number.of_nat (length ds)))%Z)
  /\ (forall (pre : list CelestialObject) o (post : list CelestialObject) d,
        ds = (pre ++ o :: post)%list ->
        Forall (fun o' => exists s, CelestialObject.diameter o' = Str s) pre ->
        Forall (fun o' => exists s, CelestialObject.diameter o' = Str s) post ->
        CelestialObject.diameter o = Num d ->
        d <> S754_zero true ->
        averageDiameter ds =
        Str (Number.toFixed 2
               (SFdiv 53 1024 d
                  (binary_normalize 53 1024 (Z.of_nat (length ds)) 0 false))))
  /\ (forall o1 o2,
        CelestialObject.diameter o1 = Str "Unknown" ->
        CelestialObject.diameter o2 = Num (Number.of_Z 10000) ->
        averageDiameter [o1; o2] = Str "5000.00")
  /\ (forall o1 o2 o3,
        CelestialObject.diameter o1 = Num (Number.of_Z 4879) ->
        CelestialObject.diameter o2 = Str "Unknown" ->
        CelestialObject.diameter o3 = Num (Number.of_Z 12104) ->
        averageDiameter [o1; o2; o3] = Str "5661.00").
Proof.
  split; [reflexivity|].
  split; [intros Hne; now rewrite averageDiameter_nonempty|].
  split; [|split; [apply of_nat_exact|split; [|split]]].
  - intros Hne Hrange. exists (Number.toFixed 2 (binary64_mean ds)).
    split; [now rewrite averageDiameter_nonempty | now apply toFixed_2_rounds].
  - intros pre o post d -> Hpre Hpost Hd Hnz.
    rewrite averageDiameter_nonempty by (now destruct pre).
    rewrite mean_diameter_binary64. unfold binary64_mean.
    rewrite fmap_app, fold_left_app.
    rewrite (fold_unknown_rows pre (S754_zero false) ltac:(discriminate) Hpre).
    assert (Ho : known_or_zero o = d)
      by (unfold known_or_zero; now rewrite Hd).
    rewrite fmap_cons. cbn [fold_left]. rewrite Ho, SFadd_zero_l by exact Hnz.
    now rewrite (fold_unknown_rows post d Hnz Hpost).
  - intros o1 o2 H1 H2. rewrite averageDiameter_nonempty by done.
    unfold mean_diameter. simpl. rewrite H1, H2. now vm_compute.
  - intros o1 o2 o3 H1 H2 H3. rewrite averageDiameter_nonempty by done.
    unfold mean_diameter. simpl. rewrite H1, H2, H3. now vm_compute.
Qed.

Lemma averageDiameter_mean_witness :
  averageDiameter two_rows = Str "5000.00"
  /\ rounded_to_hundredths (binary64_mean two_rows) "5000.00"
  /\ averageDiameter two_rows =
     Str (Number.toFixed 2
            (SFdiv 53 1024 (Number.of_Z 10000)
               (binary_normalize 53 1024 2 0 false))).
Proof.
  destruct (averageDiameter_mean two_rows)
    as (_ & _ & Hround & _ & Hone & Hex & _).
  assert (H : averageDiameter two_rows = Str "5000.00")
    by (apply Hex; reflexivity).
  split; [exact H|]. split.
  - destruct Hround as (s & Hs & Hr).
    + discriminate.
    + split; now vm_compute.
    + rewrite H in Hs. now injection Hs as <-.
  - apply (Hone [row 1 "Vulcan" (Str "Unknown")]
                (row 2 "Terra" (Num (Number.of_Z 10000))) []
                (Number.of_Z 10000)).
    + reflexivity.
    + constructor; [now exists "Unknown" | constructor].
    + constructor.
    + reflexivity.
    + discriminate.
Defined.

(** C1 as stated fails: the normalizer's output for one body of mean
    radius 3.075e24 km has the average "6.15e+24", which is not a decimal
    with two fraction digits. *)
Lemma huge_average_is_not_rounded :
  averageDiameter (transformedData [giant]) = Str "6.15e+24"
  /\ forall n, ~ two_fraction_digits "6.15e+24" n.
Proof. split; [now vm_compute | apply exponent_form_not_fixed]. Qed.

(** C2: the three statistics depend on the data set alone.  Two choices of
    search term and type selection give the same statistics, before and
    after the filter effect has stored its rows, and no sequence of
    criteria changes alters them. *)
Theorem stats_invariant_under_criteria
    (st : State) (s1 c1 s2 c2 : string) :
  let st1 := setObjectType c1 (setSearchTerm s1 st) in
  let st2 := setObjectType c2 (setSearchTerm s2 st) in
  stats st1 = stats st2
  /\ (forall st1' st2',
        filterEffect st1 = ret st1' -> filterEffect st2 = ret st2' ->
        stats st1' = stats st2')
  /\ (forall evs st',
        Forall is_criteria evs -> run st evs = ret st' ->
        stats st' = stats st).
Proof.
  intros st1 st2. split; [reflexivity|]. split.
  - intros st1' st2' H1 H2. unfold stats.
    apply filterEffect_celestialObjects in H1, H2. now rewrite H1, H2.
  - intros evs st' Hevs Hrun. unfold stats.
    now rewrite (run_criteria_celestialObjects evs st st' Hevs Hrun).
Qed.

Lemma stats_invariant_under_criteria_witness :
  exists st',
    run (fetchSolarSystemData (ret [earth; zero_sized]) initial)
        [SearchInput "ear"; TypeSelected "planet"] = ret st'
    /\ filteredObjects st' = transformedData [earth]
    /\ stats st' = stats (fetchSolarSystemData (ret [earth; zero_sized]) initial).
Proof.
  eexists. split; [now vm_compute|]. split; [now vm_compute|].
  destruct (stats_invariant_under_criteria
              (fetchSolarSystemData (ret [earth; zero_sized]) initial)
              "" "all" "" "all") as (_ & _ & H).
  apply (H [SearchInput "ear"; TypeSelected "planet"]).
  - repeat constructor.
  - now vm_compute.
Defined.

(** * Further properties of the component *)

(** ** When the filter returns *)

Section FilterLaws.
Implicit Types (ds rows : list CelestialObject) (o : CelestialObject).
Implicit Types (s c : string).

(** The filter either throws the one exception it can throw, or every name
    is a string. *)
Lemma results_throws_or_named ds s c :
  results ds s c = throw undefined_name_error \/ named ds.
Proof.
  induction ds as [|o ds [IH | IH]].
  - right. constructor.
  - destruct (CelestialObject.name o) as [n|] eqn:E.
    + left. unfold results in *. simpl.
      rewrite (matches_named _ _ _ _ E). simpl. now rewrite IH.
    + left. apply (results_unnamed _ _ _ o); [left | exact E].
  - destruct (CelestialObject.name o) as [n|] eqn:E.
    + right. constructor; [now exists n | exact IH].
    + left. apply (results_unnamed _ _ _ o); [left | exact E].
Qed.

Lemma results_ret_named ds s c rows : results ds s c = ret rows -> named ds.
Proof.
  intros H. destruct (results_throws_or_named ds s c) as [Ht | Hn]; [|done].
  rewrite Ht in H. discriminate.
Qed.

Lemma results_selected ds s c rows :
  results ds s c = ret rows -> selected (visible s c) ds rows.
Proof.
  intros H.
  destruct (results_named ds s c (results_ret_named _ _ _ _ H))
    as (rows' & H' & Hsel).
  rewrite H in H'. now injection H' as ->.
Qed.

Lemma results_sublist ds s c rows :
  results ds s c = ret rows -> rows `sublist_of` ds.
Proof.
  intros H. apply (selected_sublist (visible s c)), results_selected, H.
Qed.

Lemma named_sublist ds rows : rows `sublist_of` ds -> named ds -> named rows.
Proof.
  intros Hsub Hn. unfold named in *. rewrite Forall_forall in *.
  intros o Ho. apply Hn. now apply (elem_of_sublist rows ds).
Qed.

(** Selecting by [P] and then by [Q] selects by both. *)
Lemma selected_compose {A} (P Q : A -> Prop) (xs ys zs : list A) :
  selected P xs ys -> selected Q ys zs ->
  selected (fun x => P x /\ Q x) xs zs.
Proof.
  intros H. revert zs.
  induction H as [|x xs ys Hx _ IH|x xs ys Hx _ IH]; intros zs Hq.
  - inversion Hq. constructor.
  - inversion Hq; subst.
    + constructor; [done | auto].
    + apply selected_skip; [tauto | auto].
  - apply selected_skip; [tauto | auto].
Qed.

(** A stronger test selects a sublist. *)
Lemma selected_narrow {A} (P Q : A -> Prop) (xs ys zs : list A) :
  (forall x, P x -> Q x) ->
  selected P xs ys -> selected Q xs zs -> ys `sublist_of` zs.
Proof.
  intros HPQ H. revert zs.
  induction H as [|x xs ys Hx _ IH|x xs ys Hx _ IH]; intros zs Hq;
    inversion Hq; subst.
  - constructor.
  - constructor. auto.
  - exfalso. auto.
  - apply sublist_cons. auto.
  - auto.
Qed.

End FilterLaws.

Section SearchLaws.
Import JsString.
Implicit Types (ds rows : list CelestialObject) (o : CelestialObject).
Implicit Types (s c p q : string).

Lemma app_assoc_str a b d : (a +:+ b) +:+ d = a +:+ (b +:+ d).
Proof.
  induction a as [|x a IH]; [reflexivity|].
  rewrite !app_cons. now rewrite IH.
Qed.

Lemma contains_ignoring_case_lower name search :
  contains_ignoring_case name search
  <-> contains (toLowerCase name) (toLowerCase search).
Proof. now rewrite <- includes_ignoring_case, includes_spec. Qed.

(** A name that contains a longer term contains every stretch of it. *)
Lemma contains_ignoring_case_part name p s q :
  contains_ignoring_case name (p +:+ s +:+ q) ->
  contains_ignoring_case name s.
Proof.
  rewrite !contains_ignoring_case_lower, !toLowerCase_app.
  intros (pre & post & ->).
  exists (pre +:+ toLowerCase p), (toLowerCase q +:+ post).
  now rewrite !app_assoc_str.
Qed.

Lemma contains_ignoring_case_fold name s s' :
  equal_ignoring_case s s' ->
  contains_ignoring_case name s -> contains_ignoring_case name s'.
Proof.
  intros He. rewrite !contains_ignoring_case_lower.
  apply toLowerCase_eq_iff in He. now rewrite He.
Qed.

Lemma visible_part p s q c o : visible (p +:+ s +:+ q) c o -> visible s c o.
Proof.
  intros [(n & Hn & Hc) Ht]. split; [|exact Ht].
  exists n. split; [exact Hn | now apply (contains_ignoring_case_part n p s q)].
Qed.

Lemma visible_any_type s c o : visible s c o -> visible s "all" o.
Proof. intros [Hn _]. split; [exact Hn | now left]. Qed.

Lemma visible_type s c o :
  c <> "all" ->
  visible s c o <-> visible s "all" o /\ CelestialObject.type o = c.
Proof.
  intros Hc. unfold visible. split.
  - intros [Hn [Ht | Ht]]; [contradiction|]. repeat split; auto.
  - intros [[Hn _] Ht]. split; auto.
Qed.

Lemma selected_none {A} (P : A -> Prop) (xs : list A) :
  Forall (fun x => ~ P x) xs -> selected P xs [].
Proof. induction 1; auto with selection. Qed.

(** Two tests of which exactly one holds wherever [P] does split the
    selection by [P] in two. *)
Lemma selected_partition {A} (P Q R : A -> Prop) (xs a l r : list A) :
  Forall (fun x => P x -> (Q x \/ R x) /\ ~ (Q x /\ R x)) xs ->
  selected P xs a ->
  selected (fun x => P x /\ Q x) xs l ->
  selected (fun x => P x /\ R x) xs r ->
  a ≡ₚ l ++ r.
Proof.
  intros Hall. revert a l r.
  induction Hall as [|x xs Hx _ IH]; intros a l r Ha Hl Hr;
    inversion Ha; inversion Hl; inversion Hr; subst; try tauto.
  - reflexivity.
  - simpl. constructor. now apply IH.
  - apply Permutation_cons_app. now apply IH.
  - now apply IH.
Qed.

Lemma transform_type index body :
  CelestialObject.type (transform index body) = "planet"
  \/ CelestialObject.type (transform index body) = "dwarf planet".
Proof. simpl. destruct (Body.isPlanet body); auto. Qed.

Lemma transformedData_type bodies :
  Forall (fun o => CelestialObject.type o = "planet"
                   \/ CelestialObject.type o = "dwarf planet")
         (transformedData bodies).
Proof.
  apply Forall_forall. intros o Ho.
  apply elem_of_lookup_imap_1 in Ho as (i & body & -> & _).
  apply transform_type.
Qed.

End SearchLaws.

(** X1: the filter returns exactly when every name in the data set is a
    string; otherwise it throws the TypeError of reading [toLowerCase] of
    [undefined], whatever the criteria. *)
Theorem results_returns_iff_named
    (ds : list CelestialObject) (searchTerm objectType : string) :
  ((exists rows, results ds searchTerm objectType = ret rows) <-> named ds)
  /\ (~ named ds ->
      results ds searchTerm objectType = throw undefined_name_error).
Proof.
  split; [split|].
  - intros [rows H]. now apply (results_ret_named ds searchTerm objectType rows).
  - intros Hn.
    destruct (results_named ds searchTerm objectType Hn) as (rows & H & _).
    now exists rows.
  - intros Hn.
    now destruct (results_throws_or_named ds searchTerm objectType).
Qed.

Lemma results_returns_iff_named_witness :
  (exists rows, results (transformedData [earth]) "x" "planet" = ret rows)
  /\ results (transformedData [earth; nameless_planet]) "x" "planet"
     = throw undefined_name_error.
Proof.
  destruct (results_returns_iff_named (transformedData [earth]) "x" "planet")
    as [[_ H] _].
  destruct (results_returns_iff_named
              (transformedData [earth; nameless_planet]) "x" "planet")
    as [_ H'].
  split.
  - apply H. repeat constructor. now eexists.
  - apply H'. intros Hn. inversion Hn as [|? ? _ Hn']. inversion Hn' as [|? ? [? Hx] _].
    discriminate.
Defined.

(** X3: the search ignores the case of the term: two terms that are equal
    up to letter case give the same result on every data set. *)
Theorem results_case_insensitive
    (ds : list CelestialObject) (s s' objectType : string) :
  equal_ignoring_case s s' ->
  results ds s objectType = results ds s' objectType.
Proof.
  intros He. apply results_fold_search. now apply toLowerCase_eq_iff.
Qed.

Lemma results_case_insensitive_witness :
  results (transformedData [earth; zero_sized]) "QuA" "all"
  = results (transformedData [earth; zero_sized]) "qUa" "all".
Proof.
  apply results_case_insensitive. simpl. unfold same_letter, is_upper.
  split; [right; left | split; [right; right | split; [right; left | exact I]]];
    vm_compute; lia.
Defined.

(** X4: narrowing, for names and terms of code units below 256 (the
    strings of this model, on which [toLowerCase] acts unit by unit).  A
    search term that extends another (by characters in front or behind)
    keeps a sublist of the rows the shorter term keeps, under the same type
    selection or under "all". *)
Theorem results_narrow
    (ds rows rows' : list CelestialObject) (p s q c c' : string) :
  c' = "all" \/ c' = c ->
  results ds s c' = ret rows ->
  results ds (p +:+ s +:+ q) c = ret rows' ->
  rows' `sublist_of` rows.
Proof.
  intros Hc H H'. apply results_selected in H, H'.
  apply (selected_narrow (visible (p +:+ s +:+ q) c) (visible s c') ds);
    [|exact H'|exact H].
  intros o Ho. apply (visible_part p s q) in Ho.
  destruct Hc as [-> | ->]; [now apply (visible_any_type s c) | exact Ho].
Qed.

Lemma results_narrow_witness :
  transformedData [earth] `sublist_of` transformedData [earth; zero_sized].
Proof.
  apply (results_narrow (transformedData [earth; zero_sized]) _ _
           "e" "a" "rth" "planet" "all"); [now left | now vm_compute..].
Defined.

(** X5: filtering composes.  Filtering a result again with the same
    criteria changes nothing, and two filters applied one after the other
    give the same rows in either order. *)
Theorem results_compose
    (ds r1 r2 : list CelestialObject) (s1 c1 s2 c2 : string) :
  results ds s1 c1 = ret r1 ->
  results r1 s2 c2 = ret r2 ->
  results r1 s1 c1 = ret r1
  /\ exists r1',
       results ds s2 c2 = ret r1' /\ results r1' s1 c1 = ret r2.
Proof.
  intros H1 H2.
  pose proof (results_ret_named _ _ _ _ H1) as Hn.
  pose proof (results_selected _ _ _ _ H1) as Hs1.
  pose proof (results_selected _ _ _ _ H2) as Hs2.
  pose proof (named_sublist _ _ (results_sublist _ _ _ _ H1) Hn) as Hn1.
  split.
  - destruct (results_named r1 s1 c1 Hn1) as (r & Hr & Hsel).
    rewrite Hr. f_equal.
    apply (selected_unique (visible s1 c1) r1); [exact Hsel|].
    apply selected_all, Forall_forall. intros o Ho.
    now apply (selected_elem_of (visible s1 c1) ds r1 o Hs1).
  - destruct (results_named ds s2 c2 Hn) as (r1' & Hr1' & Hsel1').
    exists r1'. split; [exact Hr1'|].
    pose proof (named_sublist _ _ (results_sublist _ _ _ _ Hr1') Hn) as Hn1'.
    destruct (results_named r1' s1 c1 Hn1') as (r2' & Hr2' & Hsel2').
    rewrite Hr2'. f_equal.
    apply (selected_unique
             (fun o => visible s1 c1 o /\ visible s2 c2 o) ds).
    + apply (selected_iff (fun o => visible s2 c2 o /\ visible s1 c1 o));
        [intros o; tauto|].
      now apply (selected_compose _ _ ds r1').
    + now apply (selected_compose _ _ ds r1).
Qed.

Lemma results_compose_witness :
  results (transformedData [earth]) "e" "all" = ret (transformedData [earth])
  /\ exists r1',
       results (transformedData [earth; zero_sized]) "a" "planet" = ret r1'
       /\ results r1' "e" "all" = ret (transformedData [earth]).
Proof.
  apply (results_compose (transformedData [earth; zero_sized])
           (transformedData [earth]) (transformedData [earth])
           "e" "all" "a" "planet"); now vm_compute.
Defined.

(** X6: on a normalized data set whose names are strings, the rows of the
    selection "planet" and the rows of the selection "dwarf planet" together
    are the rows of "all" (each row in exactly one of the two), and any
    other selection keeps no row. *)
Theorem type_selections_partition
    (bodies : list Body) (searchTerm : string) :
  named (transformedData bodies) ->
  exists all planets dwarfs,
    results (transformedData bodies) searchTerm "all" = ret all
    /\ results (transformedData bodies) searchTerm "planet" = ret planets
    /\ results (transformedData bodies) searchTerm "dwarf planet" = ret dwarfs
    /\ all ≡ₚ planets ++ dwarfs
    /\ length all = length planets + length dwarfs
    /\ forall objectType,
         objectType <> "all" -> objectType <> "planet" ->
         objectType <> "dwarf planet" ->
         results (transformedData bodies) searchTerm objectType = ret [].
Proof.
  intros Hn. set (td := transformedData bodies) in *.
  destruct (results_named td searchTerm "all" Hn) as (a & Ha & Hsa).
  destruct (results_named td searchTerm "planet" Hn) as (p & Hp & Hsp).
  destruct (results_named td searchTerm "dwarf planet" Hn) as (d & Hd & Hsd).
  exists a, p, d. split; [exact Ha|]. split; [exact Hp|]. split; [exact Hd|].
  assert (Hperm : a ≡ₚ p ++ d).
  { apply (selected_partition (visible searchTerm "all")
             (fun o => CelestialObject.type o = "planet")
             (fun o => CelestialObject.type o = "dwarf planet") td).
    - eapply Forall_impl; [apply transformedData_type|].
      intros o Ht _. split; [exact Ht|]. intros [E1 E2].
      rewrite E1 in E2. discriminate.
    - exact Hsa.
    - apply (selected_iff (visible searchTerm "planet")); [|exact Hsp].
      intros o. now apply visible_type.
    - apply (selected_iff (visible searchTerm "dwarf planet")); [|exact Hsd].
      intros o. now apply visible_type. }
  split; [exact Hperm|]. split.
  - now rewrite Hperm, length_app.
  - intros c Hc1 Hc2 Hc3.
    destruct (results_named td searchTerm c Hn) as (r & Hr & Hsr).
    rewrite Hr. f_equal.
    apply (selected_unique (visible searchTerm c) td); [exact Hsr|].
    apply selected_none.
    eapply Forall_impl; [apply transformedData_type|].
    intros o Ht Hv. apply visible_type in Hv as [_ Hv]; [|exact Hc1].
    destruct Ht as [Ht | Ht]; congruence.
Qed.

Lemma type_selections_partition_witness :
  exists all planets dwarfs,
    results (transformedData [earth; zero_sized]) "" "all" = ret all
    /\ results (transformedData [earth; zero_sized]) "" "planet" = ret planets
    /\ results (transformedData [earth; zero_sized]) "" "dwarf planet"
       = ret dwarfs
    /\ length all = length planets + length dwarfs
    /\ results (transformedData [earth; zero_sized]) "" "moon" = ret [].
Proof.
  destruct (type_selections_partition [earth; zero_sized] "")
    as (a & p & d & Ha & Hp & Hd & _ & Hlen & Hnone).
  - repeat constructor; now eexists.
  - exists a, p, d.
    split; [exact Ha|]. split; [exact Hp|]. split; [exact Hd|].
    split; [exact Hlen|]. apply Hnone; discriminate.
Defined.

(** ** More on the normalizer *)

Section NormalizerLaws.
Implicit Types (bodies more : list Body) (body : Body).
Implicit Types (o : CelestialObject) (i : nat).

Lemma transformedData_sources bodies :
  transformedData bodies = imap transform (sources bodies).
Proof. reflexivity. Qed.

Lemma sources_lookup bodies i body :
  sources bodies !! i = Some body ->
  i < 15 /\ keeps body /\ body ∈ bodies.
Proof.
  unfold sources. intros H. apply lookup_take_Some in H as [H Hi].
  split; [exact Hi|].
  apply list_elem_of_lookup_2, list_elem_of_filter in H. tauto.
Qed.

Lemma transformedData_lookup_sources bodies i :
  transformedData bodies !! i = transform i <$> sources bodies !! i.
Proof. rewrite transformedData_sources. apply list_lookup_imap. Qed.

Lemma named_transformedData_iff bodies :
  named (transformedData bodies)
  <-> Forall (fun body => is_Some (Body.englishName body)) (sources bodies).
Proof.
  unfold named. rewrite !Forall_lookup. split.
  - intros H i body Hb.
    apply (H i (transform i body)).
    now rewrite transformedData_lookup_sources, Hb.
  - intros H i o Ho. rewrite transformedData_lookup_sources in Ho.
    destruct (sources bodies !! i) as [body|] eqn:E; [|discriminate].
    injection Ho as <-. now apply (H i).
Qed.

Lemma all_named_or_not (l : list Body) :
  Forall (fun body => is_Some (Body.englishName body)) l
  \/ exists body, body ∈ l /\ Body.englishName body = None.
Proof.
  induction l as [|body l [IH | (b & Hb & Hn)]].
  - left. constructor.
  - destruct (Body.englishName body) as [n|] eqn:E.
    + left. constructor; [now exists n | exact IH].
    + right. exists body. split; [left | exact E].
  - right. exists b. split; [now right | exact Hn].
Qed.

Lemma filter_keeps_idem bodies :
  filter keeps (filter keeps bodies) = filter keeps bodies.
Proof.
  symmetry. apply selected_keeps_filter, selected_all, Forall_forall.
  intros body Hb. now apply list_elem_of_filter in Hb as [? _].
Qed.

Lemma take_app_prefix {A} (n : nat) (l k : list A) :
  take n l `prefix_of` take n (l ++ k).
Proof. rewrite take_app. now apply prefix_app_r. Qed.

Lemma imap_prefix {A B} (f : nat -> A -> B) (l k : list A) :
  l `prefix_of` k -> imap f l `prefix_of` imap f k.
Proof. intros [m ->]. rewrite imap_app. now apply prefix_app_r. Qed.

Lemma fold_left_add_sum {A} (f : A -> nat) (l : list A) (acc : nat) :
  fold_left (fun sum x => sum + f x) l acc = acc + sum_list (f <$> l).
Proof.
  revert acc. induction l as [|x l IH]; intros acc.
  - cbn. lia.
  - rewrite fmap_cons. cbn [fold_left sum_list sum_list_with].
    rewrite IH. cbn. lia.
Qed.

Lemma totalMoons_sum_list (ds : list CelestialObject) :
  totalMoons ds = sum_list (CelestialObject.moons <$> ds).
Proof.
  unfold totalMoons. destruct ds as [|o ds]; [reflexivity|].
  simpl Nat.ltb. cbv iota. now rewrite fold_left_add_sum.
Qed.

Lemma fmap_imap_const {A B C} (f : nat -> A -> B) (g : B -> C) (h : A -> C)
    (l : list A) :
  (forall i x, g (f i x) = h x) -> g <$> imap f l = h <$> l.
Proof.
  intros Hgf. revert f Hgf. induction l as [|x l IH]; intros f Hgf;
    [reflexivity|].
  simpl. rewrite Hgf. f_equal. apply IH. intros i y. apply Hgf.
Qed.

End NormalizerLaws.

(** X2: the filter throws on the normalizer's output exactly when one of
    the first 15 kept records has no English name; a record without a name
    that is discarded, or kept beyond the 15th, does no harm. *)
Theorem pipeline_throws_iff_unnamed_source
    (bodies : list Body) (searchTerm objectType : string) :
  (results (transformedData bodies) searchTerm objectType
   = throw undefined_name_error
   <-> exists body, body ∈ sources bodies /\ Body.englishName body = None)
  /\ ((exists rows,
         results (transformedData bodies) searchTerm objectType = ret rows)
      <-> Forall (fun body => is_Some (Body.englishName body))
                 (sources bodies)).
Proof.
  assert (Hret : (exists rows,
             results (transformedData bodies) searchTerm objectType = ret rows)
          <-> Forall (fun body => is_Some (Body.englishName body))
                     (sources bodies)).
  { rewrite <- named_transformedData_iff. split.
    - intros [rows H]. now apply (results_ret_named _ _ _ _ H).
    - intros Hn.
      destruct (results_named _ searchTerm objectType Hn) as (rows & H & _).
      now exists rows. }
  split; [|exact Hret]. split.
  - intros Hthrow.
    destruct (all_named_or_not (sources bodies)) as [Hall | Hex]; [|exact Hex].
    apply Hret in Hall as [rows Hrows]. rewrite Hthrow in Hrows. discriminate.
  - intros (body & Hin & Hname).
    destruct (results_throws_or_named (transformedData bodies)
                searchTerm objectType) as [Ht | Hn]; [exact Ht|].
    apply named_transformedData_iff in Hn.
    rewrite Forall_forall in Hn. destruct (Hn body Hin) as [n Hn'].
    congruence.
Qed.

Lemma pipeline_throws_iff_unnamed_source_witness :
  (exists rows,
     results (transformedData (replicate 15 earth ++ [nameless_planet]))
             "earth" "all" = ret rows)
  /\ results (transformedData (nameless_planet :: replicate 15 earth))
             "earth" "all" = throw undefined_name_error.
Proof.
  split.
  - apply (pipeline_throws_iff_unnamed_source
             (replicate 15 earth ++ [nameless_planet]) "earth" "all").
    vm_compute. repeat constructor; now eexists.
  - apply (pipeline_throws_iff_unnamed_source
             (nameless_planet :: replicate 15 earth) "earth" "all").
    exists nameless_planet. split; [left | reflexivity].
Defined.

(** X7: each row reflects the record it is made from.  The row at position
    [i] comes from a kept record of the input, carries its name, is tagged
    "planet" exactly when the planet flag is set, is tagged "dwarf planet"
    only for a record whose body type is "Dwarf Planet", counts its moons
    (0 without a moon array), and shows its discovery date, "Prehistoric"
    standing in for a missing or empty one: the discovery cell is never
    empty. *)
Theorem row_reflects_body
    (bodies : list Body) (i : nat) (o : CelestialObject) :
  transformedData bodies !! i = Some o ->
  exists body,
    sources bodies !! i = Some body
    /\ body ∈ bodies
    /\ CelestialObject.name o = Body.englishName body
    /\ (CelestialObject.type o = "planet" <-> Body.isPlanet body = true)
    /\ (CelestialObject.type o = "dwarf planet" ->
        Body.isPlanet body = false /\ Body.bodyType body = "Dwarf Planet")
    /\ CelestialObject.moons o = moonCount body
    /\ CelestialObject.discoveryYear o <> ""
    /\ (forall date, Body.discoveryDate body = Some date -> date <> "" ->
          CelestialObject.discoveryYear o = date)
    /\ (Body.discoveryDate body = None \/ Body.discoveryDate body = Some "" ->
        CelestialObject.discoveryYear o = "Prehistoric").
Proof.
  rewrite transformedData_lookup_sources. intros H.
  destruct (sources bodies !! i) as [body|] eqn:E; [|discriminate].
  injection H as <-. exists body. split; [reflexivity|].
  destruct (sources_lookup _ _ _ E) as (_ & Hk & Hin).
  split; [exact Hin|]. split; [reflexivity|]. simpl.
  split; [|split; [|split; [reflexivity|split; [|split]]]].
  - destruct (Body.isPlanet body); split; (discriminate || reflexivity).
  - destruct (Body.isPlanet body) eqn:Ep; [discriminate|]. intros _.
    split; [reflexivity|]. destruct Hk as [Hk | Hk]; [|exact Hk].
    rewrite Ep in Hk. contradiction.
  - destruct (Body.discoveryDate body) as [[|c d]|]; discriminate.
  - intros date -> Hd. destruct date; [contradiction | reflexivity].
  - intros [-> | ->]; reflexivity.
Qed.

Lemma row_reflects_body_witness :
  exists body,
    sources [earth; zero_sized] !! 1 = Some body
    /\ Body.bodyType body = "Dwarf Planet"
    /\ moonCount body = 0.
Proof.
  destruct (row_reflects_body [earth; zero_sized] 1 (transform 1 zero_sized))
    as (body & Hb & _ & _ & _ & Hd & Hm & _).
  - reflexivity.
  - exists body. split; [exact Hb|]. split.
    + now apply Hd.
    + now rewrite <- Hm.
Defined.

(** X8: the normalizer looks at kept records only and never revises a row.
    Dropping the discarded records upstream changes nothing; records
    appended upstream leave the existing rows (ids included) as a prefix;
    once 15 records are kept, appended records change nothing at all; the
    output is never longer than the input. *)
Theorem transformedData_stable (bodies more : list Body) :
  transformedData (filter keeps bodies) = transformedData bodies
  /\ transformedData bodies `prefix_of` transformedData (bodies ++ more)
  /\ (15 <= length (filter keeps bodies) ->
      transformedData (bodies ++ more) = transformedData bodies)
  /\ length (transformedData bodies) <= length bodies.
Proof.
  split; [|split; [|split]].
  - unfold transformedData. now rewrite filter_keeps_idem.
  - unfold transformedData. rewrite filter_app.
    apply imap_prefix, take_app_prefix.
  - intros H. unfold transformedData.
    now rewrite filter_app, take_app_le by lia.
  - rewrite transformedData_length.
    pose proof (length_filter keeps bodies). lia.
Qed.

Lemma transformedData_stable_witness :
  transformedData (replicate 15 earth ++ [zero_sized])
  = transformedData (replicate 15 earth).
Proof.
  destruct (transformedData_stable (replicate 15 earth) [zero_sized])
    as (_ & _ & H & _).
  apply H. vm_compute. lia.
Defined.

(** X9: the moon card is the sum of the rows' moon counts; for a
    normalized data set that is the number of moon entries upstream lists
    for the first 15 kept records, a record without a moon array counting
    0.  The total of two data sets put together is the sum of their
    totals. *)
Theorem totalMoons_sum (bodies : list Body) (ds ds' : list CelestialObject) :
  totalMoons ds = sum_list (CelestialObject.moons <$> ds)
  /\ totalMoons (transformedData bodies) = sum_list (moonCount <$> sources bodies)
  /\ totalMoons (ds ++ ds') = totalMoons ds + totalMoons ds'.
Proof.
  split; [apply totalMoons_sum_list|]. split.
  - rewrite totalMoons_sum_list, transformedData_sources.
    f_equal. now apply fmap_imap_const.
  - rewrite !totalMoons_sum_list, fmap_app. apply sum_list_with_app.
Qed.

(** X10: a data set of at most 15 rows, none of which has a numeric
    diameter, shows the average "0.00" (a string), while the empty data set
    shows the number 0. *)
Theorem averageDiameter_all_unknown (ds : list CelestialObject) :
  ds <> [] -> length ds <= 15 ->
  Forall (fun o => exists s, CelestialObject.diameter o = Str s) ds ->
  averageDiameter ds = Str "0.00".
Proof.
  intros Hne Hlen Hall.
  rewrite (averageDiameter_nonempty ds Hne). unfold mean_diameter.
  assert (Hsum : fold_left Number.add
            ((fun o => unknown_as_zero (CelestialObject.diameter o)) <$> ds)
            Number.zero = Number.zero).
  { clear Hne Hlen. induction Hall as [|o ds [s Hs] _ IH]; [reflexivity|].
    rewrite fmap_cons. simpl. rewrite Hs. exact IH. }
  rewrite Hsum. destruct ds as [|o ds]; [done|]. clear Hsum Hall Hne.
  simpl in Hlen. remember (length (o :: ds)) as n eqn:En. simpl in En.
  assert (Hn : 1 <= n <= 15) by lia. clear En Hlen.
  destruct n as [|n]; [lia|].
  do 15 (destruct n as [|n]; [now vm_compute|]). lia.
Qed.

Lemma averageDiameter_all_unknown_witness :
  averageDiameter (transformedData [zero_sized; nameless_planet]) = Str "0.00".
Proof.
  apply averageDiameter_all_unknown.
  - discriminate.
  - vm_compute. lia.
  - repeat constructor; now eexists.
Defined.

(** ** The request and the screens *)

Section Component.
Implicit Types (st : State) (ev : Event) (evs : list Event).
Implicit Types (settled : result Response.t) (bodies : list Body).

Lemma filterEffect_ret st st' :
  filterEffect st = ret st' ->
  results (celestialObjects st) (searchTerm st) (objectType st)
  = ret (filteredObjects st')
  /\ celestialObjects st' = celestialObjects st
  /\ searchTerm st' = searchTerm st
  /\ objectType st' = objectType st
  /\ loading st' = loading st
  /\ error st' = error st.
Proof.
  unfold filterEffect.
  destruct (results _ _ _) as [e | rows]; simpl; [discriminate|].
  now intros [= <-].
Qed.

Lemma update_error st ev text :
  (forall t, error st = Some t -> exists m, t = "Failed to fetch data: " +:+ m) ->
  error (update st ev) = Some text ->
  exists m, text = "Failed to fetch data: " +:+ m.
Proof.
  intros H. destruct ev as [[e | bodies] | v | v]; simpl; try apply H.
  - intros [= <-]. now exists (message e).
  - discriminate.
Qed.

Lemma step_consistent st ev st' :
  consistent st -> step st ev = ret st' -> consistent st'.
Proof.
  intros ([b Hb] & _ & Herr) Hstep. unfold step in Hstep.
  apply filterEffect_ret in Hstep as (Hres & Hcs & Hs & Hc & _ & He).
  split; [|split].
  - rewrite Hcs.
    destruct ev as [[e | bodies] | v | v]; simpl; eauto.
  - now rewrite Hcs, Hs, Hc.
  - intros text Ht. rewrite He in Ht. now apply (update_error st ev).
Qed.

Lemma run_consistent evs st st' :
  consistent st -> run st evs = ret st' -> consistent st'.
Proof.
  revert st. induction evs as [|ev evs IH]; intros st Hc.
  - now intros [= <-].
  - simpl. destruct (step st ev) as [e | st1] eqn:E; simpl; [discriminate|].
    apply IH. now apply (step_consistent st ev).
Qed.

Lemma initial_consistent : consistent initial.
Proof.
  split; [now exists []|]. split; [reflexivity | discriminate].
Qed.

Lemma step_loading st ev st' :
  step st ev = ret st' ->
  loading st' = true <-> loading st = true /\ is_criteria ev.
Proof.
  intros Hstep. unfold step in Hstep.
  apply filterEffect_ret in Hstep as (_ & _ & _ & _ & Hl & _). rewrite Hl.
  destruct ev as [[e | bodies] | v | v]; simpl; intuition discriminate.
Qed.

Lemma run_loading evs st st' :
  run st evs = ret st' ->
  loading st' = true <-> loading st = true /\ Forall is_criteria evs.
Proof.
  revert st. induction evs as [|ev evs IH]; intros st.
  - intros [= <-]. split; [intros H; split; [exact H | constructor] | tauto].
  - simpl. destruct (step st ev) as [e | st1] eqn:E; simpl; [discriminate|].
    intros Hrun. rewrite (IH _ Hrun), (step_loading _ _ _ E), Forall_cons.
    tauto.
Qed.

Lemma App_loading st : App st = LoadingScreen <-> loading st = true.
Proof.
  unfold App. destruct (loading st); [tauto|].
  destruct (error st) as [[|c t]|]; split; discriminate.
Qed.

Lemma transformedData_keys_NoDup bodies :
  NoDup (CelestialObject.id <$> transformedData bodies).
Proof. rewrite transformedData_ids. apply NoDup_seq. Qed.

Lemma tableRow_keys (rows : list CelestialObject) :
  TableRow.key <$> (tableRow <$> rows) = CelestialObject.id <$> rows.
Proof. rewrite <- list_fmap_compose. reflexivity. Qed.

End Component.

(** X11: records are taken from a response only if its status is ok, its
    body parses and the parsed object has [bodies]; a response whose status
    is not ok is refused with "Network response was not ok" whatever its
    body holds. *)
Theorem fetchedBodies_ret_iff
    (settled : result Response.t) (bodies : list Body) :
  (fetchedBodies settled = ret bodies
   <-> exists response data,
         settled = ret response
         /\ Response.ok response = true
         /\ Response.json response = ret data
         /\ Data.bodies data = Some bodies)
  /\ (forall response,
        settled = ret response -> Response.ok response = false ->
        fetchedBodies settled = throw (Error "Network response was not ok")).
Proof.
  split.
  - unfold fetchedBodies. split.
    + destruct settled as [e | response]; simpl; [discriminate|].
      destruct (Response.ok response) eqn:Eok; simpl; [|discriminate].
      destruct (Response.json response) as [e | data] eqn:Ej; simpl;
        [discriminate|].
      destruct (Data.bodies data) as [bs|] eqn:Eb; [|discriminate].
      intros [= <-]. now exists response, data.
    + intros (response & data & -> & Hok & Hj & Hb). simpl.
      now rewrite Hok, Hj; simpl; rewrite Hb.
  - intros response -> Hok. unfold fetchedBodies. simpl. now rewrite Hok.
Qed.

Lemma fetchedBodies_ret_iff_witness :
  fetchedBodies (response_with [earth]) = ret [earth]
  /\ fetchedBodies
       (ret {| Response.ok := false;
               Response.json := ret {| Data.bodies := Some [earth] |} |})
     = throw (Error "Network response was not ok").
Proof.
  split.
  - apply (fetchedBodies_ret_iff (response_with [earth]) [earth]).
    now eexists _, _.
  - now eapply (fetchedBodies_ret_iff _ []).
Defined.

(** X12: a request that fails (rejected, status not ok, body that does not
    parse, no [bodies]) leaves the data set, the rows and the criteria as
    they were, ends the loading state and stores "Failed to fetch data: "
    followed by the exception's message; the component then returns the
    error line, even for an empty message. *)
Theorem failed_request_keeps_data
    (settled : result Response.t) (e : Exn) (st : State) :
  fetchedBodies settled = throw e ->
  let st' := fetchSolarSystemData (fetchedBodies settled) st in
  celestialObjects st' = celestialObjects st
  /\ filteredObjects st' = filteredObjects st
  /\ searchTerm st' = searchTerm st
  /\ objectType st' = objectType st
  /\ loading st' = false
  /\ error st' = Some ("Failed to fetch data: " +:+ message e)
  /\ App st' = ErrorScreen ("Failed to fetch data: " +:+ message e).
Proof.
  intros H. rewrite H. simpl. repeat split.
Qed.

Lemma failed_request_keeps_data_witness :
  App (fetchSolarSystemData (fetchedBodies (throw (TypeError ""))) initial)
  = ErrorScreen "Failed to fetch data: ".
Proof.
  now destruct (failed_request_keeps_data (throw (TypeError ""))
                  (TypeError "") initial eq_refl)
    as (_ & _ & _ & _ & _ & _ & H).
Defined.

(** X13: the component after its mount.  A failed request gives the error
    line.  A response with named records gives the dashboard: the cards
    computed from the normalized data, all of its rows (the initial
    criteria keep every row), and their number as result count.  A response
    in which one of the first 15 kept records has no name makes the filter
    effect throw. *)
Theorem mounted_screen (settled : result Response.t) :
  (forall e, fetchedBodies settled = throw e ->
     exists st, mounted settled = ret st
       /\ App st = ErrorScreen ("Failed to fetch data: " +:+ message e))
  /\ (forall bodies, fetchedBodies settled = ret bodies ->
        named (transformedData bodies) ->
        exists st, mounted settled = ret st
          /\ App st =
             DashboardScreen
               {| statObjects := length (transformedData bodies);
                  statAverageDiameter :=
                    averageDiameter (transformedData bodies);
                  statMoons := totalMoons (transformedData bodies) |}
               (length (transformedData bodies))
               (tableRow <$> transformedData bodies))
  /\ (forall bodies, fetchedBodies settled = ret bodies ->
        ~ named (transformedData bodies) ->
        mounted settled = throw undefined_name_error).
Proof.
  unfold mounted, run, step. split; [|split].
  - intros e H. rewrite H. simpl. eexists. split; reflexivity.
  - intros bodies H Hn. rewrite H. simpl. unfold filterEffect. simpl.
    destruct (results_named (transformedData bodies) "" "all" Hn)
      as (rows & Hrows & Hsel).
    assert (rows = transformedData bodies) as ->.
    { apply (selected_unique (visible "" "all") (transformedData bodies));
        [exact Hsel|].
      apply selected_all. eapply Forall_impl; [exact Hn|]. apply visible_all. }
    rewrite Hrows. simpl. eexists. split; reflexivity.
  - intros bodies H Hn. rewrite H. simpl. unfold filterEffect. simpl.
    destruct (results_throws_or_named (transformedData bodies) "" "all")
      as [Ht | Hn']; [|contradiction].
    now rewrite Ht.
Qed.

Lemma mounted_screen_witness :
  exists st,
    mounted (response_with [earth; zero_sized]) = ret st
    /\ App st =
       DashboardScreen
         {| statObjects := 2;
            statAverageDiameter := Str "6371.00";
            statMoons := 2 |}
         2 (tableRow <$> transformedData [earth; zero_sized]).
Proof.
  destruct (mounted_screen (response_with [earth; zero_sized]))
    as (_ & H & _).
  destruct (H [earth; zero_sized] eq_refl) as (st & Hm & Happ).
  - repeat constructor; now eexists.
  - exists st. split; [exact Hm|]. rewrite Happ. now vm_compute.
Defined.

(** X14: once the filter effect of the last event has run, the rows are
    the filter's result for the current criteria, hence a sublist of the
    data set with names that are strings; the data set is an output of the
    normalizer, with at most 15 entries and ids 1, 2, 3, ...  In the render
    between the next state update and its effect the rows may not match the
    new criteria yet, but they are still a sublist of the data set, the
    data set is still such an output, and the effect, when it returns, puts
    the rows in step with the criteria again. *)
Theorem reachable_rows_in_sync (evs : list Event) (st : State) :
  run initial evs = ret st ->
  (results (celestialObjects st) (searchTerm st) (objectType st)
   = ret (filteredObjects st)
   /\ filteredObjects st `sublist_of` celestialObjects st
   /\ named (celestialObjects st)
   /\ (exists bodies, celestialObjects st = transformedData bodies)
   /\ length (celestialObjects st) <= 15
   /\ CelestialObject.id <$> celestialObjects st
      = seq 1 (length (celestialObjects st)))
  /\ forall ev,
       filteredObjects (update st ev) `sublist_of` celestialObjects (update st ev)
       /\ (exists bodies, celestialObjects (update st ev) = transformedData bodies)
       /\ length (celestialObjects (update st ev)) <= 15
       /\ CelestialObject.id <$> celestialObjects (update st ev)
          = seq 1 (length (celestialObjects (update st ev)))
       /\ forall st',
            filterEffect (update st ev) = ret st' ->
            results (celestialObjects st') (searchTerm st') (objectType st')
            = ret (filteredObjects st').
Proof.
  intros Hrun.
  destruct (run_consistent evs initial st initial_consistent Hrun)
    as ([bodies Hb] & Hres & _).
  pose proof (results_sublist _ _ _ _ Hres) as Hsub.
  split.
  { split; [exact Hres|]. split; [exact Hsub|].
    split; [now apply (results_ret_named _ _ _ _ Hres)|].
    split; [now exists bodies|]. rewrite Hb. split.
    - rewrite transformedData_length. lia.
    - apply transformedData_ids. }
  intros ev.
  assert (Hdata : exists b, celestialObjects (update st ev) = transformedData b).
  { destruct ev as [[e | b] | v | v]; simpl; eauto. }
  split.
  { destruct ev as [[e | b] | v | v]; simpl; auto. }
  split; [exact Hdata|].
  destruct Hdata as [b ->]. split; [|split].
  - rewrite transformedData_length. lia.
  - apply transformedData_ids.
  - intros st' Heff.
    apply filterEffect_ret in Heff as (Hr & Hcs & Hs & Hc & _).
    now rewrite Hcs, Hs, Hc.
Qed.

Lemma reachable_rows_in_sync_witness :
  exists st,
    run initial [SearchInput "q"; Fetched (fetchedBodies (response_with
                   [earth; zero_sized])); TypeSelected "dwarf planet"] = ret st
    /\ filteredObjects st `sublist_of` celestialObjects st
    /\ length (filteredObjects st) = 1
    /\ filteredObjects (update st (SearchInput "zz"))
       `sublist_of` celestialObjects (update st (SearchInput "zz")).
Proof.
  eexists. split; [now vm_compute|].
  pose proof (reachable_rows_in_sync
                [SearchInput "q"; Fetched (fetchedBodies (response_with
                   [earth; zero_sized])); TypeSelected "dwarf planet"]) as H.
  edestruct H as ((_ & Hsub & _) & Hmid); [now vm_compute|].
  split; [exact Hsub|]. split; [reflexivity|].
  now destruct (Hmid (SearchInput "zz")) as (Hs & _).
Defined.

(** X15: whenever a reachable state shows the dashboard, the result count
    is the number of table rows, it does not exceed the object count of the
    first card, which is at most 15, and the rows' React keys are pairwise
    distinct and lie between 1 and the object count. *)
Theorem dashboard_rows_and_keys
    (evs : list Event) (st : State)
    (cards : Stats) (resultCount : nat) (rows : list TableRow.t) :
  run initial evs = ret st ->
  App st = DashboardScreen cards resultCount rows ->
  resultCount = length rows
  /\ resultCount <= statObjects cards
  /\ statObjects cards <= 15
  /\ NoDup (TableRow.key <$> rows)
  /\ Forall (fun r => 1 <= TableRow.key r <= statObjects cards) rows.
Proof.
  intros Hrun Happ.
  destruct (run_consistent evs initial st initial_consistent Hrun)
    as ([bodies Hb] & Hres & _).
  pose proof (results_sublist _ _ _ _ Hres) as Hsub.
  assert (Hscreen : cards = stats st
                    /\ resultCount = length (filteredObjects st)
                    /\ rows = tableRow <$> filteredObjects st).
  { unfold App in Happ. destruct (loading st); [discriminate|].
    destruct (error st) as [[|ch t]|]; try discriminate;
      now injection Happ as <- <- <-. }
  destruct Hscreen as (-> & -> & ->). simpl. unfold totalObjects.
  assert (Hids : CelestialObject.id <$> filteredObjects st
                 `sublist_of` seq 1 (length (celestialObjects st))).
  { rewrite Hb, <- transformedData_ids, <- Hb. now apply fmap_sublist. }
  split; [now rewrite length_fmap|].
  split; [now apply sublist_length|].
  split; [rewrite Hb, transformedData_length; lia|].
  rewrite tableRow_keys. split.
  - eapply sublist_NoDup; [apply NoDup_seq | exact Hids].
  - apply Forall_fmap, Forall_forall. intros o Ho. simpl.
    assert (Hin : CelestialObject.id o ∈ seq 1 (length (celestialObjects st))).
    { apply (elem_of_sublist _ _ _ (list_elem_of_fmap_2 _ _ _ Ho) Hids). }
    apply elem_of_seq in Hin. lia.
Qed.

Lemma dashboard_rows_and_keys_witness :
  NoDup (TableRow.key <$>
           (tableRow <$> transformedData [zero_sized; zero_sized])).
Proof.
  pose (st := setFilteredObjects
                (transformedData [zero_sized; zero_sized])
                (fetchSolarSystemData (ret [zero_sized; zero_sized]) initial)).
  apply (dashboard_rows_and_keys
           [Fetched (ret [zero_sized; zero_sized])] st
           (stats st) (length (filteredObjects st))
           (tableRow <$> filteredObjects st)).
  - now vm_compute.
  - reflexivity.
Defined.

(** X16: the component returns the loading line exactly until the first
    request has settled, whatever criteria changes happen before; and the
    only error line it ever returns is "Failed to fetch data: " followed by
    a message. *)
Theorem loading_until_fetched (evs : list Event) (st : State) :
  run initial evs = ret st ->
  (App st = LoadingScreen <-> Forall is_criteria evs)
  /\ (forall text, App st = ErrorScreen text ->
        exists m, text = "Failed to fetch data: " +:+ m).
Proof.
  intros Hrun. split.
  - rewrite App_loading, (run_loading evs initial st Hrun). simpl. tauto.
  - intros text Happ.
    destruct (run_consistent evs initial st initial_consistent Hrun)
      as (_ & _ & Herr).
    apply Herr. unfold App in Happ. destruct (loading st); [discriminate|].
    destruct (error st) as [[|ch t]|]; try discriminate.
    now injection Happ as <-.
Qed.

Lemma loading_until_fetched_witness :
  exists st,
    run initial [SearchInput "mars"; TypeSelected "planet"] = ret st
    /\ App st = LoadingScreen.
Proof.
  eexists. split; [now vm_compute|].
  refine (proj2 (proj1 (loading_until_fetched
            [SearchInput "mars"; TypeSelected "planet"] _ _)) _).
  - now vm_compute.
  - repeat constructor.
Defined.
